(** * picca: correlation-function driver and delta-extraction data layer

    A shallow embedding of
    - [bin/do_cf.py]: configuration, per-forest preprocessing, fan-out of one
      task per healpix cell and the final reduction;
    - [py/picca/delta_extraction/data.py]: [Data.__init__],
      [filter_bad_cont_forests], [filter_forests], [find_nside];
    - [py/picca/delta_extraction/data_catalogues/desi_data.py]:
      [DesiData.__init__], [_parse_config] and [read_from_desi].

    numpy's float64 is IEEE-754 binary64, modelled by the executable
    specification [spec_float] of the standard library (precision 53,
    emax 1024).  External collaborators (cosmology, healpy, libm, the
    per-cell pair accumulator, the catalogue and the spectra files) are fields
    of the classes [Pylya], [Picca] and [DesiSurvey]. *)

From Stdlib Require Import ZArith List Floats.SpecFloat Permutation Sorted Lia.
From stdpp Require Import gmap strings list fin_maps pretty.
From Equations Require Import Equations.

Open Scope Z_scope.

(* ===================================================================== *)
(** * Exceptions and results *)
(* ===================================================================== *)

Inductive exn : Type :=
  | DataError (msg : string)
  | ValueError
  | KeyError (key : string)
  | IndexError
  | ZeroDivisionError
  | OSError.

Inductive result (A : Type) : Type :=
  | Ok (a : A)
  | Raise (e : exn).
Arguments Ok {A} a.
Arguments Raise {A} e.

Definition rbind {A B} (r : result A) (k : A -> result B) : result B :=
  match r with
  | Ok a => k a
  | Raise e => Raise e
  end.

Notation "'do' x <- r ; k" := (rbind r (fun x => k))
  (at level 10, x name, r at level 100, k at level 200).

Fixpoint rmapM {A B} (f : A -> result B) (l : list A) : result (list B) :=
  match l with
  | [] => Ok []
  | a :: l' => do b <- f a; do bs <- rmapM f l'; Ok (b :: bs)
  end.

(* ===================================================================== *)
(** * float64 *)
(* ===================================================================== *)

Module F64.
Definition prec : Z := 53.
Definition emax : Z := 1024.
Abbreviation float := spec_float.

Definition add : float -> float -> float := SFadd prec emax.
Definition sub : float -> float -> float := SFsub prec emax.
Definition mul : float -> float -> float := SFmul prec emax.
Definition div : float -> float -> float := SFdiv prec emax.
Definition ltb : float -> float -> bool := SFltb.

  (** conversion of a Python int (exact below 2^53, rounded to nearest above) *)
Definition of_Z (z : Z) : float := binary_normalize prec emax z 0 false.

Definition zero : float := S754_zero false.
Definition one : float := of_Z 1.
Definition nan : float := S754_nan.

(** [math.pi] = 0x1.921fb54442d18p+1 *)
Definition pi : float := S754_finite false 7074237752028440 (-51).

Definition is_nan (x : float) : bool :=
    match x with S754_nan => true | _ => false end.

Definition is_zero (x : float) : bool :=
    match x with S754_zero _ => true | _ => false end.

Definition is_inf (x : float) : bool :=
    match x with S754_infinity _ => true | _ => false end.

  (** [bool -> float64] as numpy casts it in [float_array * bool_array] *)
Definition of_bool (b : bool) : float := if b then one else zero.
End F64.
Abbreviation float := spec_float.

(* ===================================================================== *)
(** * numpy on one- and two-dimensional arrays *)
(* ===================================================================== *)

Module Np.
  (** element-wise binary operation with numpy's broadcasting of length-1
      operands; any other shape mismatch raises ValueError *)
Definition binop (op : float -> float -> float) (a b : list float)
    : result (list float) :=
    if (length a =? length b)%nat then Ok (zip_with op a b)
    else match a, b with
         | [x], _ => Ok (map (op x) b)
         | _, [y] => Ok (map (fun x => op x y) a)
         | _, _ => Raise ValueError
         end.

Definition mul := binop F64.mul.

  (** [a.sum()] : accumulation from the identity 0.0 *)
Definition sum (a : list float) : float := fold_left F64.add a F64.zero.

  (** [a.sum(axis=0)] of a C-ordered 2-D array with rows of length [ncol]:
      the rows are added one after the other to a row of zeros *)
Definition sum_axis0 (ncol : nat) (a : list (list float)) : list float :=
    fold_left (zip_with F64.add) a (replicate ncol F64.zero).

  (** element-wise operation on same-shape 2-D arrays *)
Definition zip2 {A B C} (op : A -> B -> C) (a : list (list A)) (b : list (list B))
    : list (list C) :=
    zip_with (zip_with op) a b.

Definition isnan (a : list float) : list bool := map F64.is_nan a.

  (** [a[w] = v] for a boolean mask [w] of the shape of [a] *)
Definition set_where {A} (w : list bool) (v : A) (a : list A) : list A :=
    zip_with (fun (b : bool) x => if b then v else x) w a.

  (** [len(np.unique(a))] *)
Definition n_unique (a : list Z) : nat := length (remove_dups a).
End Np.

(* ===================================================================== *)
(** * bin/do_cf.py *)
(* ===================================================================== *)

(** one delta object of [pylya.data.delta]: the attributes the driver
    reads and writes *)
Record delta : Type := {
  d_ra : float;
  d_dec : float;
  d_ll : list float;
  d_we : list float;
  d_de : list float;
  d_z : list float;
  d_r_comov : list float;
}.

(** rows 0..4 of the array returned by [cf.cf] for one cell *)
Record cell_cf : Type := {
  c_we : list float;
  c_da : list float;
  c_rp : list float;
  c_rt : list float;
  c_z : list float;
}.

(** the module-level variables of [pylya.cf] that the driver assigns *)
Record cf_globals : Type := {
  cf_rp_max : float;
  cf_rt_max : float;
  cf_np : Z;
  cf_nt : Z;
  cf_nside : Z;
  cf_zref : float;
  cf_alpha : float;
  cf_angmax : float;
}.

(** what the driver imports and does not define *)
Class Pylya : Type := {
  boss_lambda_min : float;       (* constants.boss_lambda_min *)
  lya : float;                   (* constants.lya *)
  r_comoving : float -> float -> float;   (* constants.cosmo(Om).r_comoving *)
  arcsin : float -> float;       (* sp.arcsin *)
  power : float -> float -> float;        (* ** on float64 *)
  ang2pix : Z -> float -> float -> Z;     (* healpy.ang2pix, one position *)
  project : delta -> delta;      (* delta.project *)
  cf_cf : cf_globals -> list (Z * list delta) -> list Z -> cell_cf;
                                 (* cf.fill_neighs ; cf.cf on cf.data *)
}.

(** the [argparse] namespace *)
Record args : Type := {
  a_out : string;
  a_in_dir : string;
  a_rp_max : float;
  a_rt_max : float;
  a_np : Z;
  a_nt : Z;
  a_lambda_abs : float;
  a_fid_Om : float;
  a_nside : Z;
  a_nproc : option Z;
  a_z_ref : float;
  a_z_evol : float;
  a_no_project : bool;
  a_from_image : bool;
  a_nspec : option Z;
}.

Module DoCf.
Section WithPylya.
Context `{Pylya}.

  (** 200.0, 0.315, 2.25, 2.9 as float64 *)
Definition f200 : float := F64.of_Z 200.
Definition f0_315 : float := S754_finite false 5674535530486825 (-54).
Definition f2_25 : float := S754_finite false 5066549580791808 (-51).
Definition f2_9 : float := S754_finite false 6530219459687219 (-51).

  (** the namespace when only the two required options are given *)
Definition default_args (out in_dir : string) : args := {|
    a_out := out;
    a_in_dir := in_dir;
    a_rp_max := f200;
    a_rt_max := f200;
    a_np := 50;
    a_nt := 50;
    a_lambda_abs := lya;
    a_fid_Om := f0_315;
    a_nside := 16;
    a_nproc := None;
    a_z_ref := f2_25;
    a_z_evol := f2_9;
    a_no_project := false;
    a_from_image := false;
    a_nspec := None;
  |}.

  (** lines 72-73: [if args.nproc is None: args.nproc = cpu_count()/2]
      (Python 2: [/] on two ints is floor division) *)
Definition resolve_nproc (cpu_count : Z) (a : args) : Z :=
    match a_nproc a with
    | None => cpu_count / 2
    | Some n => n
    end.

  (** line 131: [Pool(processes=args.nproc)]; the pool refuses a size
      below 1 *)
Definition Pool (processes : Z) : result Z :=
    if processes <? 1 then Raise ValueError else Ok processes.

Definition make_pool (cpu_count : Z) (a : args) : result Z :=
    Pool (resolve_nproc cpu_count a).

  (** lines 75-85 *)
Definition configure (a : args) : cf_globals :=
    let rp_max := a_rp_max a in
    let rt_max := a_rt_max a in
    let cosmo := r_comoving (a_fid_Om a) in
    {| cf_rp_max := rp_max;
       cf_rt_max := rt_max;
       cf_np := a_np a;
       cf_nt := a_nt a;
       cf_nside := a_nside a;
       cf_zref := a_z_ref a;
       cf_alpha := a_z_evol a;
       cf_angmax :=
         arcsin (F64.div rt_max
                   (cosmo (F64.sub (F64.div boss_lambda_min (a_lambda_abs a))
                                   F64.one))) |}.

(** lines 102-104: one healpix id per delta *)
Definition pixels (nside : Z) (dels : list delta) : list Z :=
  let phi := map d_ra dels in
  let th := map (fun d => F64.sub (F64.div F64.pi (F64.of_Z 2)) (d_dec d)) dels in
  zip_with (ang2pix nside) th phi.

(** [a *= b] on a float array: [b] is broadcast to the shape of [a] or
    the assignment raises ValueError *)
Definition imul (a b : list float) : result (list float) :=
  if (length a =? length b)%nat then Ok (zip_with F64.mul a b)
  else match b with
       | [y] => Ok (map (fun x => F64.mul x y) a)
       | _ => Raise ValueError
       end.

(** line 110: [z = 10**d.ll/args.lambda_abs-1] *)
Definition redshift (a : args) (ll : list float) : list float :=
  map (fun l => F64.sub (F64.div (power (F64.of_Z 10) l) (a_lambda_abs a)) F64.one) ll.

(** line 113, right-hand side: [((1+z)/(1+args.z_ref))**(cf.alpha-1)] *)
Definition evolution (a : args) (g : cf_globals) (z : list float) : list float :=
  map (fun zi => power (F64.div (F64.add F64.one zi) (F64.add F64.one (a_z_ref a)))
                       (F64.sub (cf_alpha g) F64.one)) z.

(** lines 110-115: the mutation of one delta *)
Definition preprocess_one (a : args) (g : cf_globals) (d : delta) : result delta :=
  let z := redshift a (d_ll d) in
  let r := map (r_comoving (a_fid_Om a)) z in
  do we <- imul (d_we d) (evolution a g z);
  let d1 := {| d_ra := d_ra d; d_dec := d_dec d; d_ll := d_ll d; d_we := we;
               d_de := d_de d; d_z := z; d_r_comov := r |} in
  Ok (if negb (a_no_project a) then project d1 else d1).

(** the dict [data]: keys in order of first insertion, each with the list
    of deltas appended to it *)
Fixpoint dict_append (p : Z) (d : delta) (data : list (Z * list delta))
  : list (Z * list delta) :=
  match data with
  | [] => [(p, [d])]
  | (q, ds) :: rest =>
      if p =? q then (q, ds ++ [d]) :: rest else (q, ds) :: dict_append p d rest
  end.

(** lines 105-115: [for d,p in zip(dels,pix)].  The list stored under
    [data[p]] holds a reference to [d], so it sees the mutation that follows
    the [append]. *)
Fixpoint preprocess_loop (a : args) (g : cf_globals) (dps : list (delta * Z))
  (data : list (Z * list delta)) (done : list delta)
  : result (list (Z * list delta) * list delta) :=
  match dps with
  | [] => Ok (data, done)
  | (d, p) :: rest =>
      do d' <- preprocess_one a g d;
      preprocess_loop a g rest (dict_append p d' data) (done ++ [d'])
  end.

Definition preprocess (a : args) (g : cf_globals) (dels : list delta)
  : result (list (Z * list delta) * list delta) :=
  preprocess_loop a g (zip dels (pixels (cf_nside g) dels)) [] [].

(** ** Fan-out *)

(** The order in which a dict of ints yields its keys, as a function of the
    order in which they were inserted: hash-slot order under the Python 2
    interpreter this driver is written for, insertion order from
    Python 3.7 on.  The language only promises a rearrangement of the keys. *)
Class PyDict : Type := {
  dict_order : list Z -> list Z;
  dict_order_perm : forall keys, Permutation (dict_order keys) keys;
}.

Section FanOut.
Context `{PyDict}.

(** lines 127-129 and the argument of line 133: [cpu_data.values()] after
    [for p in data.keys(): cpu_data[p] = [p]] *)
Definition cpu_data_values (data : list (Z * list delta)) : list (list Z) :=
  let data_keys := dict_order (map fst data) in
  map (fun p => [p]) (dict_order data_keys).

(** line 16: [corr_func] *)
Definition corr_func (g : cf_globals) (data : list (Z * list delta)) (p : list Z)
  : cell_cf :=
  cf_cf g data p.

(** [Pool.map]: the workers finish the tasks in the order [schedule] (task
    indices); each result is stored in the slot of its task, and the list of
    slots is returned once every task has finished *)
Definition pool_run {A B} (f : A -> B) (tasks : list A) (schedule : list nat)
  : list (option B) :=
  fold_left
    (fun slots i =>
       match tasks !! i with
       | Some t => <[i := Some (f t)]> slots
       | None => slots
       end)
    schedule (replicate (length tasks) None).

Definition pool_map {A B} (f : A -> B) (tasks : list A) (schedule : list nat)
  : option (list B) :=
  mapM id (pool_run f tasks schedule).

(** ** Reduction and output *)

(** the two HDUs written to the output file *)
Record output : Type := {
  o_rp : list float;
  o_rt : list float;
  o_z : list float;
  o_head : float * float * Z * Z;      (* RPMAX, RTMAX, NT, NP *)
  o_we : list (list float);
  o_da : list (list float);
}.

(** lines 136-156.  [cfs[:,0,:]] on the array of an empty list of results
    raises IndexError. *)
Definition reduce (g : cf_globals) (cfs : list cell_cf) : result output :=
  match cfs with
  | [] => Raise IndexError
  | c0 :: _ =>
      let nbin := length (c_we c0) in
      let wes := map c_we cfs in
      let rps := map c_rp cfs in
      let rts := map c_rt cfs in
      let zs := map c_z cfs in
      let cfs' := map c_da cfs in
      let rp := zip_with F64.div (Np.sum_axis0 nbin (Np.zip2 F64.mul rps wes))
                                 (Np.sum_axis0 nbin wes) in
      let rt := zip_with F64.div (Np.sum_axis0 nbin (Np.zip2 F64.mul rts wes))
                                 (Np.sum_axis0 nbin wes) in
      let z := zip_with F64.div (Np.sum_axis0 nbin (Np.zip2 F64.mul zs wes))
                                (Np.sum_axis0 nbin wes) in
      Ok {| o_rp := rp; o_rt := rt; o_z := z;
            o_head := (cf_rp_max g, cf_rt_max g, cf_nt g, cf_np g);
            o_we := wes; o_da := cfs' |}
  end.

(** lines 119-156 for one completion order of the tasks; [None] while a
    task has not finished *)
Definition run_cf (g : cf_globals) (data : list (Z * list delta))
  (schedule : list nat) : option (result output) :=
  cfs ← pool_map (corr_func g data) (cpu_data_values data) schedule;
  Some (reduce g cfs).

End FanOut.

(** the dict of Python 3.7 and later *)
Definition insertion_order : PyDict :=
  {| dict_order := fun keys => keys;
     dict_order_perm := fun keys => Permutation_refl keys |}.

End WithPylya.
End DoCf.

(* ===================================================================== *)
(** * picca.delta_extraction *)
(* ===================================================================== *)

(** the attributes of a Forest that [Data] reads and writes *)
Record forest : Type := {
  f_los_id : Z;
  f_ra : float;
  f_dec : float;
  f_flux : list float;
  f_ivar : list float;
  f_bad_continuum_reason : option string;
  f_healpix : option Z;
}.

(** a configparser.SectionProxy: [config.get(name)] is [config !! name] *)
Abbreviation config := (gmap string string).

(** what the package imports and does not define *)
Class Picca : Type := {
  ABSORBER_IGM : gmap string float;      (* utils.ABSORBER_IGM *)
  py_int : string -> option Z;           (* int(str), None for ValueError *)
  py_lower : string -> string;           (* str.lower *)
  np_sum : list float -> float;          (* ndarray.sum of a 1-D array *)
  hp_ang2pix : Z -> float -> float -> Z; (* healpy.ang2pix, one position *)
}.

Module Data.
Section WithPicca.
Context `{Picca}.

(** [defaults] of data.py *)
Definition default_analysis_type : string := "BAO 3D".
Definition default_lambda_abs_igm : option float := ABSORBER_IGM !! "LYA".
Definition default_min_num_pix : Z := 50.

Definition accepted_analysis_type : list string := ["BAO 3D"; "PK 1D"].

(** [",".join(l)] *)
Fixpoint join_comma (l : list string) : string :=
  match l with
  | [] => ""
  | [s] => s
  | s :: rest => s +:+ "," +:+ join_comma rest
  end.

(** [config.getint(name)]: None when the option is absent, ValueError when
    it is not an integer *)
Definition getint (c : config) (name : string) : result (option Z) :=
  match c !! name with
  | None => Ok None
  | Some v => match py_int v with
              | Some n => Ok (Some n)
              | None => Raise ValueError
              end
  end.

(** the instance attributes set by [Data.__init__] *)
Record data : Type := {
  analysis_type : string;
  forests : list forest;
  min_num_pix : Z;
}.

(** [Data.__init__].  The class attribute [Pk1dForest.lambda_abs_igm] is
    threaded through: [igm] is its value before the call, the first
    component of the result its value after. *)
Definition init (c : config) (igm : option float)
  : option float * result data :=
  let analysis_type :=
    match c !! "analysis type" with
    | None => default_analysis_type
    | Some v => v
    end in
  if negb (bool_decide (analysis_type ∈ accepted_analysis_type)) then
    (igm, Raise (DataError ("Invalid argument 'analysis type' required by "
                            +:+ "DesiData. Accepted values: "
                            +:+ join_comma accepted_analysis_type)))
  else
    let igm' :=
      if bool_decide (analysis_type = "BAO 3D") then
        match c !! "absorber IGM" with
        | None => default_lambda_abs_igm
        | Some name => ABSORBER_IGM !! name
        end
      else igm in
    (igm',
     do n <- getint c "minimum number pixels in forest";
     Ok {| analysis_type := analysis_type;
           forests := [];
           min_num_pix := match n with
                          | None => default_min_num_pix
                          | Some n => n
                          end |}).

(** [del l[index]] *)
Definition del_at {A} (index : nat) (l : list A) : result (list A) :=
  if (index <? length l)%nat then Ok (delete index l) else Raise IndexError.

(** [sorted(l, reverse=True)] on a list of indices *)
Fixpoint insert_desc (i : nat) (l : list nat) : list nat :=
  match l with
  | [] => [i]
  | j :: l' => if (j <=? i)%nat then i :: j :: l' else j :: insert_desc i l'
  end.

Definition sorted_reverse (l : list nat) : list nat :=
  foldr insert_desc [] l.

(** [for index in sorted(remove_indexs, reverse=True): del self.forests[index]] *)
Fixpoint del_all {A} (indexs : list nat) (l : list A) : result (list A) :=
  match indexs with
  | [] => Ok l
  | index :: rest => do l' <- del_at index l; del_all rest l'
  end.

(** the loop of [filter_bad_cont_forests] over [enumerate(self.forests)],
    from position [index] on *)
Fixpoint bad_cont_indexs (index : nat) (fs : list forest) (remove_indexs : list nat)
  : list nat :=
  match fs with
  | [] => remove_indexs
  | f :: rest =>
      match f_bad_continuum_reason f with
      | Some _ => bad_cont_indexs (S index) rest (remove_indexs ++ [index])
      | None => bad_cont_indexs (S index) rest remove_indexs
      end
  end.

(** [Data.filter_bad_cont_forests] (the log lines are left out) *)
Definition filter_bad_cont_forests (d : data) : result data :=
  let remove_indexs := bad_cont_indexs 0 (forests d) [] in
  do fs <- del_all (sorted_reverse remove_indexs) (forests d);
  Ok {| analysis_type := analysis_type d; forests := fs;
        min_num_pix := min_num_pix d |}.

(** the test of one forest in [filter_forests]: [true] when its index is
    appended to [remove_indexs], [false] for [continue] *)
Definition fails_quality (min_num_pix : Z) (f : forest) : result bool :=
  if Z.of_nat (length (f_flux f)) <? min_num_pix then Ok true
  else
    do prod <- Np.mul (f_flux f) (f_ivar f);
    if F64.is_nan (np_sum prod) then Ok true else Ok false.

Fixpoint quality_indexs (min_num_pix : Z) (index : nat) (fs : list forest)
  (remove_indexs : list nat) : result (list nat) :=
  match fs with
  | [] => Ok remove_indexs
  | f :: rest =>
      do bad <- fails_quality min_num_pix f;
      if bad then quality_indexs min_num_pix (S index) rest (remove_indexs ++ [index])
      else quality_indexs min_num_pix (S index) rest remove_indexs
  end.

(** [Data.filter_forests] (the log lines are left out) *)
Definition filter_forests (d : data) : result data :=
  do remove_indexs <- quality_indexs (min_num_pix d) 0 (forests d) [];
  do fs <- del_all (sorted_reverse remove_indexs) (forests d);
  Ok {| analysis_type := analysis_type d; forests := fs;
        min_num_pix := min_num_pix d |}.

(** ** find_nside *)

(** [a / b] on two Python ints (true division; the quotient of the two
    conversions is the correctly rounded one below 2^53) *)
Definition truediv (a b : Z) : result float :=
  if b =? 0 then Raise ZeroDivisionError
  else Ok (F64.div (F64.of_Z a) (F64.of_Z b)).

(** [healpy.ang2pix(nside, np.pi / 2 - dec, ra)] over the forests *)
Definition healpixs_at (nside : Z) (fs : list forest) : list Z :=
  map (fun f => hp_ang2pix nside
                  (F64.sub (F64.div F64.pi (F64.of_Z 2)) (f_dec f)) (f_ra f)) fs.

(** [len(healpixs) / len(np.unique(healpixs))] *)
Definition mean_num_obj (healpixs : list Z) : result float :=
  truediv (Z.of_nat (length healpixs)) (Z.of_nat (Np.n_unique healpixs)).

Definition target_mean_num_obj : float := F64.of_Z 500.
Definition nside_min : Z := 8.

(** the state of the while loop: nside, healpixs, mean_num_obj *)
Definition nside_state : Type := Z * list Z * float.

(** lines 122-125 *)
Equations? nside_loop (fs : list forest) (nside : Z) (healpixs : list Z)
  (mean : float) : result nside_state by wf (Z.to_nat nside) lt :=
  nside_loop fs nside healpixs mean
    with F64.ltb mean target_mean_num_obj, decide (nside >= nside_min) => {
    | true, left Hge
        with mean_num_obj (healpixs_at (nside / 2) fs) => {
        | Ok mean' := nside_loop fs (nside / 2) (healpixs_at (nside / 2) fs) mean'
        | Raise e := Raise e }
    | _, _ := Ok (nside, healpixs, mean) }.
Proof.
  unfold nside_min in Hge.
  apply Z2Nat.inj_lt; try lia.
  - apply Z.div_pos; lia.
  - apply Z.div_lt; lia.
Qed.

(** [zip(self.forests, healpixs)] with the assignment [forest.healpix = healpix] *)
Definition assign_healpix (fs : list forest) (healpixs : list Z) : list forest :=
  zip_with (fun f hp =>
              {| f_los_id := f_los_id f; f_ra := f_ra f; f_dec := f_dec f;
                 f_flux := f_flux f; f_ivar := f_ivar f;
                 f_bad_continuum_reason := f_bad_continuum_reason f;
                 f_healpix := Some hp |}) fs healpixs.

(** [Data.find_nside]: the final nside and the forests with their ids *)
Definition find_nside (fs : list forest) : result (Z * list forest) :=
  let nside := 256 in
  let healpixs := healpixs_at nside fs in
  do mean <- mean_num_obj healpixs;
  do st <- nside_loop fs nside healpixs mean;
  let '(nside', healpixs', _) := st in
  Ok (nside', assign_healpix fs healpixs').

End WithPicca.
End Data.

(* ===================================================================== *)
(** * picca.delta_extraction.data_catalogues.desi_data *)
(* ===================================================================== *)

(** a value held by an attribute that is either read from the
    configuration (a string) or taken from [defaults] *)
Inductive pyval : Type :=
  | PStr (s : string)
  | PFloat (x : float)
  | PBool (b : bool).

(** the contents of one HDU of a spectra file *)
Inductive hdu : Type :=
  | Vector (a : list float)
  | Image (a : list (list float))
  | Mask (a : list (list Z)).

(** one row of the quasar catalogue *)
Record entry : Type := {
  e_targetid : Z;
  e_ra : float;
  e_dec : float;
  e_z : float;
  e_petal : Z;
  e_tile : Z;
  e_night : Z;
}.

(** the keyword arguments of one call of the DesiForest constructor;
    [spec[key][w_t]] is a row for an integer [w_t] and a list of rows for
    an index array *)
Record forest_args : Type := {
  fa_lambda : hdu;
  fa_flux : list (list float);
  fa_ivar : list (list float);
  fa_entry : entry;
}.

(** the IO a DesiData constructor performs: the call of ZtruthCatalogue
    and the spectra files it asks for *)
Inductive io_event : Type :=
  | LoadCatalogue
  | OpenFits (filename : string).

(** one entry of [spectrographs_data]: the dict [spec] *)
Abbreviation spec_dict := (gmap string hdu).

Module DesiData.
Section WithPicca.
Context `{Picca}.

(** [defaults] of desi_data.py: 1.0, 5500.0, 1200.0, 3600.0, 1040.0, False *)
Definition default_delta_lambda : pyval := PFloat (F64.of_Z 1).
Definition default_lambda_max : pyval := PFloat (F64.of_Z 5500).
Definition default_lambda_max_rest_frame : pyval := PFloat (F64.of_Z 1200).
Definition default_lambda_min : pyval := PFloat (F64.of_Z 3600).
Definition default_lambda_min_rest_frame : pyval := PFloat (F64.of_Z 1040).
Definition default_mini_sv : bool := false.

(** [configparser.RawConfigParser.BOOLEAN_STATES] *)
Definition BOOLEAN_STATES : list (string * bool) :=
  [("1", true); ("yes", true); ("true", true); ("on", true);
   ("0", false); ("no", false); ("false", false); ("off", false)].

Fixpoint assoc (k : string) (l : list (string * bool)) : option bool :=
  match l with
  | [] => None
  | (k', v) :: rest => if bool_decide (k = k') then Some v else assoc k rest
  end.

(** [config.getboolean(name)] *)
Definition getboolean (c : config) (name : string) : result (option bool) :=
  match c !! name with
  | None => Ok None
  | Some v => match assoc (py_lower v) BOOLEAN_STATES with
              | Some b => Ok (Some b)
              | None => Raise ValueError
              end
  end.

(** [x = config.get(name); if x is None: x = default] *)
Definition get_or (c : config) (name : string) (default : pyval) : pyval :=
  match c !! name with
  | None => default
  | Some v => PStr v
  end.

(** the attributes set by [_parse_config] *)
Record desi_config : Type := {
  delta_lambda : pyval;
  input_directory : string;
  lambda_max : pyval;
  lambda_max_rest_frame : pyval;
  lambda_min : pyval;
  lambda_min_rest_frame : pyval;
  mini_sv : bool;
}.

(** [DesiData._parse_config] *)
Definition parse_config (c : config) : result desi_config :=
  let delta_lambda := get_or c "delta lambda" default_delta_lambda in
  match c !! "input directory" with
  | None => Raise (DataError "Missing argument 'input directory' required by SdssData")
  | Some input_directory =>
      let lambda_max := get_or c "lambda max" default_lambda_max in
      let lambda_max_rest_frame :=
        get_or c "lambda max rest frame" default_lambda_max_rest_frame in
      let lambda_min := get_or c "lambda min" default_lambda_min in
      let lambda_min_rest_frame :=
        get_or c "lambda min rest frame" default_lambda_min_rest_frame in
      do b <- getboolean c "mini SV";
      Ok {| delta_lambda := delta_lambda;
            input_directory := input_directory;
            lambda_max := lambda_max;
            lambda_max_rest_frame := lambda_max_rest_frame;
            lambda_min := lambda_min;
            lambda_min_rest_frame := lambda_min_rest_frame;
            mini_sv := match b with
                       | None => default_mini_sv
                       | Some b => b
                       end |}
  end.

(** ** read_from_desi: one spectra file *)

(** [hdul[name].read()]: OSError when the file has no such HDU *)
Definition read_hdu (hdul : gmap string hdu) (name : string) : result hdu :=
  match hdul !! name with
  | Some h => Ok h
  | None => Raise OSError
  end.

Definition same_shape {A B} (a : list (list A)) (b : list (list B)) : bool :=
  bool_decide (map length a = map length b).

(** [ivar * (mask == 0)] on the images of one band, which share their shape
    (number of spectra x number of wavelengths); files laid out otherwise
    are outside the model and mapped to ValueError *)
Definition mask_ivar (ivar mask : hdu) : result (list (list float)) :=
  match ivar, mask with
  | Image iv, Mask mk =>
      if same_shape iv mk
      then Ok (Np.zip2 (fun x m => F64.mul x (F64.of_bool (m =? 0))) iv mk)
      else Raise ValueError
  | _, _ => Raise ValueError
  end.

(** [np.isnan(spec["FLUX"]) | np.isnan(spec["IVAR"])] *)
Definition nan_either (flux ivar : list (list float)) : list (list bool) :=
  Np.zip2 (fun x y => F64.is_nan x || F64.is_nan y) flux ivar.

(** [a[w] = 0.] on a 2-D array *)
Definition zero_where (w : list (list bool)) (a : list (list float))
  : list (list float) :=
  zip_with (fun wr ar => Np.set_where wr F64.zero ar) w a.

(** the body of the [try] of lines 168-176 *)
Definition read_band (hdul : gmap string hdu) (color : string) : result spec_dict :=
  do wavelength <- read_hdu hdul (color +:+ "_WAVELENGTH");
  do flux <- read_hdu hdul (color +:+ "_FLUX");
  do ivar0 <- read_hdu hdul (color +:+ "_IVAR");
  do mask <- read_hdu hdul (color +:+ "_MASK");
  do ivar <- mask_ivar ivar0 mask;
  match flux with
  | Image flux =>
      if same_shape flux ivar then
        let w := nan_either flux ivar in
        Ok (<["IVAR" := Image (zero_where w ivar)]>
            (<["FLUX" := Image (zero_where w flux)]>
             (<["WAVELENGTHL" := wavelength]> ∅)))
      else Raise ValueError
  | _ => Raise ValueError
  end.

(** [spectrographs_data[color] = spec], keys in insertion order *)
Fixpoint dict_set (color : string) (spec : spec_dict)
  (sd : list (string * spec_dict)) : list (string * spec_dict) :=
  match sd with
  | [] => [(color, spec)]
  | (c, s) :: rest =>
      if bool_decide (c = color) then (c, spec) :: rest
      else (c, s) :: dict_set color spec rest
  end.

(** lines 166-180: [except OSError] drops the band, anything else
    propagates *)
Fixpoint read_bands (hdul : gmap string hdu) (colors : list string)
  (sd : list (string * spec_dict)) : result (list (string * spec_dict)) :=
  match colors with
  | [] => Ok sd
  | color :: rest =>
      match read_band hdul color with
      | Ok spec => read_bands hdul rest (dict_set color spec sd)
      | Raise OSError => read_bands hdul rest sd
      | Raise e => Raise e
      end
  end.

(** lines 162-180 *)
Definition spectrographs_data (hdul : gmap string hdu)
  : result (list (string * spec_dict)) :=
  let colors := ["B"; "R"] ++ (if bool_decide (is_Some (hdul !! "Z_FLUX"))
                               then ["Z"] else []) in
  read_bands hdul colors [].

(** [np.where(targetid_spec == targetid)[0]] *)
Fixpoint where_eq (index : nat) (targetid_spec : list Z) (targetid : Z) : list nat :=
  match targetid_spec with
  | [] => []
  | t :: rest =>
      if t =? targetid then index :: where_eq (S index) rest targetid
      else where_eq (S index) rest targetid
  end.

(** [a[w_t]]: the rows of [a] at the positions [w_t] *)
Definition rows (a : hdu) (w_t : list nat) : result (list (list float)) :=
  match a with
  | Image a =>
      rmapM (fun i => match a !! i with
                      | Some r => Ok r
                      | None => Raise IndexError
                      end) w_t
  | _ => Raise ValueError
  end.

(** [d[key]] *)
Definition getitem (d : spec_dict) (key : string) : result hdu :=
  match d !! key with
  | Some v => Ok v
  | None => Raise (KeyError key)
  end.

(** lines 205-217 for one [spec]: the arguments handed to DesiForest *)
Definition forest_args_of (spec : spec_dict) (w_t : list nat) (e : entry)
  : result forest_args :=
  do iv <- getitem spec "IV";
  do ivar <- rows iv w_t;
  do fl <- getitem spec "FL";
  do flux <- rows fl w_t;
  do wavelength <- getitem spec "WAVELENGTH";
  Ok {| fa_lambda := wavelength; fa_flux := flux; fa_ivar := ivar; fa_entry := e |}.

(** lines 204-222: [for spec in spectrographs_data.values()]; the calls of
    the constructor made so far are kept when an exception ends the loop *)
Fixpoint build_specs (specs : list spec_dict) (w_t : list nat) (e : entry)
  (calls : list forest_args) : list forest_args * result unit :=
  match specs with
  | [] => (calls, Ok tt)
  | spec :: rest =>
      match forest_args_of spec w_t e with
      | Ok fa => build_specs rest w_t e (calls ++ [fa])
      | Raise ex => (calls, Raise ex)
      end
  end.

(** lines 187-222: [for entry in catalogue[select]] *)
Fixpoint build_entries (sd : list (string * spec_dict)) (targetid_spec : list Z)
  (entries : list entry) (calls : list forest_args)
  : list forest_args * result unit :=
  match entries with
  | [] => (calls, Ok tt)
  | e :: rest =>
      let w_t := where_eq 0 targetid_spec (e_targetid e) in
      match w_t with
      | [] => build_entries sd targetid_spec rest calls
      | _ =>
          match build_specs (map snd sd) w_t e calls with
          | (calls', Ok _) => build_entries sd targetid_spec rest calls'
          | (calls', Raise ex) => (calls', Raise ex)
          end
      end
  end.

(** lines 160-222 for one file that opened: the constructor calls made and
    how the iteration ended *)
Definition read_file (hdul : gmap string hdu) (targetid_spec : list Z)
  (entries : list entry) : list forest_args * result unit :=
  match spectrographs_data hdul with
  | Raise ex => ([], Raise ex)
  | Ok sd => build_entries sd targetid_spec entries []
  end.

End WithPicca.
End DesiData.

(* ===================================================================== *)
(** * picca.delta_extraction.data: save_deltas *)
(* ===================================================================== *)

Module SaveDeltas.

(** [np.unique] of an integer array: its distinct values in ascending
    order *)
Fixpoint insert_unique (x : Z) (l : list Z) : list Z :=
  match l with
  | [] => [x]
  | y :: l' =>
      if x <? y then x :: y :: l'
      else if x =? y then y :: l'
      else y :: insert_unique x l'
  end.

Definition np_unique (a : list Z) : list Z := foldr insert_unique [] a.

(** lines 143-144: the dict [healpixs_indexs], keys in insertion order *)
Definition healpixs_indexs (healpixs : list Z) : list (Z * list nat) :=
  map (fun healpix => (healpix, DesiData.where_eq 0 healpixs healpix))
      (np_unique healpixs).

(** [sorted(d.items())] for a dict with integer keys: ascending keys (the
    keys of a dict differ, so the values are never compared) *)
Fixpoint insert_item (it : Z * list nat) (l : list (Z * list nat))
  : list (Z * list nat) :=
  match l with
  | [] => [it]
  | it' :: l' =>
      if it.1 <=? it'.1 then it :: it' :: l' else it' :: insert_item it l'
  end.

Definition sorted_items (items : list (Z * list nat)) : list (Z * list nat) :=
  foldr insert_item [] items.

(** [out_dir + "/delta-{}".format(healpix) + ".fits.gz"] *)
Definition filename (out_dir : string) (healpix : Z) : string :=
  out_dir +:+ "/delta-" +:+ pretty healpix +:+ ".fits.gz".

(** lines 151-159: the forests written to one file, one HDU each, in the
    order of [indexs] *)
Definition hdus (fs : list forest) (indexs : list nat) : result (list forest) :=
  rmapM (fun index => match fs !! index with
                      | Some f => Ok f
                      | None => Raise IndexError
                      end) indexs.

(** [Data.save_deltas] from line 142 on, for the array [healpixs] of line
    141: the files written, in order, each with its HDUs *)
Definition save_deltas (out_dir : string) (healpixs : list Z) (fs : list forest)
  : result (list (string * list forest)) :=
  rmapM (fun it : Z * list nat =>
           do written <- hdus fs it.2;
           Ok (filename out_dir it.1, written))
        (sorted_items (healpixs_indexs healpixs)).

End SaveDeltas.

(* ===================================================================== *)
(** * DesiData: the constructor and read_from_desi *)
(* ===================================================================== *)

(** a spectra file that opened: the TARGETID column of its FIBERMAP HDU, or
    what reading it raises, and its other HDUs *)
Record spectra_file : Type := {
  sf_targetid : result (list Z);
  sf_hdul : gmap string hdu;
}.

(** what the constructor of DesiData meets outside the code followed here *)
Class DesiSurvey : Type := {
  (* ZtruthCatalogue(config): the rows of the quasar catalogue, or what
     loading it raises *)
  ztruth_catalogue : config -> result (list entry);
  (* healpy.ang2pix(nside, theta, phi, nest=True) at one position, or what
     it raises *)
  ang2pix_nest : Z -> float -> float -> result Z;
  (* fitsio.FITS(filename): None for IOError *)
  fits_open : string -> option spectra_file;
  (* DesiData.read_from_minisv_desi, which finds its files with glob: the
     files it asks for and the constructor calls it makes, or what it
     raises *)
  read_from_minisv_desi :
    DesiData.desi_config -> list entry -> list io_event * result (list forest_args);
}.

Module DesiDataInit.
Section WithSurvey.
Context `{Picca} `{DesiSurvey}.

(** [s.split(sep)[-1]] for a separator that is not empty: what follows the
    last of the occurrences of [sep] found from the left, all of [s] when
    there is none.  [skip] counts the characters of an occurrence still to
    pass, [piece] holds what was read since the last one. *)
Fixpoint split_last_from (sep : string) (skip : nat) (s piece : string) : string :=
  match s with
  | EmptyString => piece
  | String ch s' =>
      match skip with
      | S k => split_last_from sep k s' piece
      | O =>
          if String.prefix sep s
          then split_last_from sep (String.length sep - 1) s' EmptyString
          else split_last_from sep 0 s' (piece +:+ String ch EmptyString)
      end
  end.

Definition split_last (sep s : string) : string := split_last_from sep 0 s EmptyString.

(** [s.replace('/', '')] *)
Fixpoint remove_slashes (s : string) : string :=
  match s with
  | EmptyString => EmptyString
  | String ch s' =>
      if String.eqb (String ch EmptyString) "/" then remove_slashes s' else String ch (remove_slashes s')
  end.

(** line 135:
    [int(self.input_directory.split('spectra-')[-1].replace('/', ''))] *)
Definition in_nside (input_directory : string) : result Z :=
  match py_int (remove_slashes (split_last "spectra-" input_directory)) with
  | Some n => Ok n
  | None => Raise ValueError
  end.

(** lines 144-145 *)
Definition filename (input_directory : string) (in_nside healpix : Z) : string :=
  input_directory +:+ "/" +:+ pretty (healpix / 100) +:+ "/" +:+ pretty healpix
  +:+ "/spectra-" +:+ pretty in_nside +:+ "-" +:+ pretty healpix +:+ ".fits".

(** lines 143-222: the loop over the pixels of the catalogue, whose rows
    come with their pixel.  [events] are the files asked for so far and
    [calls] the constructor calls made so far; a file that does not open is
    passed over. *)
Fixpoint read_healpixs (input_directory : string) (in_nside : Z)
  (catalogue : list (entry * Z)) (unique_in_healpixs : list Z)
  (events : list io_event) (calls : list forest_args)
  : list io_event * list forest_args * result unit :=
  match unique_in_healpixs with
  | [] => (events, calls, Ok tt)
  | healpix :: rest =>
      let name := filename input_directory in_nside healpix in
      let events := events ++ [OpenFits name] in
      match fits_open name with
      | None => read_healpixs input_directory in_nside catalogue rest events calls
      | Some file =>
          match sf_targetid file with
          | Raise ex => (events, calls, Raise ex)
          | Ok targetid_spec =>
              let select :=
                map fst (List.filter (fun eh : entry * Z => eh.2 =? healpix) catalogue) in
              match DesiData.read_file (sf_hdul file) targetid_spec select with
              | (made, Ok _) =>
                  read_healpixs input_directory in_nside catalogue rest events
                    (calls ++ made)
              | (made, Raise ex) => (events, calls ++ made, Raise ex)
              end
          end
      end
  end.

(** [DesiData.read_from_desi]: the files asked for, the calls of the
    DesiForest constructor, and how the reading ended.  What is printed and
    warned is left out. *)
Definition read_from_desi (dc : DesiData.desi_config) (catalogue : list entry)
  : list io_event * list forest_args * result unit :=
  match in_nside (DesiData.input_directory dc) with
  | Raise ex => ([], [], Raise ex)
  | Ok nside =>
      match rmapM (fun e => ang2pix_nest nside
                              (F64.sub (F64.div F64.pi (F64.of_Z 2)) (e_dec e))
                              (e_ra e)) catalogue with
      | Raise ex => ([], [], Raise ex)
      | Ok in_healpixs =>
          read_healpixs (DesiData.input_directory dc) nside (zip catalogue in_healpixs)
            (SaveDeltas.np_unique in_healpixs) [] []
      end
  end.

(** [DesiData.__init__]: the value of [Pk1dForest.lambda_abs_igm] after the
    call, the IO performed, in order, and the attributes with the calls of
    the DesiForest constructor, or the exception raised.  The assignments
    to the class attributes of DesiForest (lines 81-85) raise nothing. *)
Definition init (c : config) (igm : option float)
  : option float * list io_event
    * result (Data.data * DesiData.desi_config * list forest_args) :=
  match Data.init c igm with
  | (igm', Raise ex) => (igm', [], Raise ex)
  | (igm', Ok d) =>
      match DesiData.parse_config c with
      | Raise ex => (igm', [], Raise ex)
      | Ok dc =>
          match ztruth_catalogue c with
          | Raise ex => (igm', [LoadCatalogue], Raise ex)
          | Ok catalogue =>
              if DesiData.mini_sv dc then
                let '(events, r) := read_from_minisv_desi dc catalogue in
                (igm', LoadCatalogue :: events, do calls <- r; Ok (d, dc, calls))
              else
                let '(events, calls, r) := read_from_desi dc catalogue in
                (igm', LoadCatalogue :: events, do _ <- r; Ok (d, dc, calls))
          end
      end
  end.

End WithSurvey.
End DesiDataInit.

(* ===================================================================== *)
(** * picca.prep_pk1d *)
(* ===================================================================== *)

(** what prep_pk1d.py imports and does not define *)
Class Pk1dEnv : Type := {
  speed_light : float;                (* constants.speed_light *)
  np_log : float -> float;            (* np.log, sp.log *)
  np_power : float -> float -> float; (* np.power *)
}.

Module PrepPk1d.

Definition sqrt : float -> float := SFsqrt F64.prec F64.emax.

(** [x > y] *)
Definition gtb (x y : float) : bool := SFltb y x.

(** 0.5, 4., 1000., 1.0e-4, 10., 1.267, 0.000142716, 1.9068e-08, 1.097,
    6000.0, .25, .75, 100., 1.0e-6, 1.0e6, 2.0 as float64 *)
Definition f0_5 : float := S754_finite false 4503599627370496 (-53).
Definition f4 : float := S754_finite false 4503599627370496 (-50).
Definition f1000 : float := S754_finite false 8796093022208000 (-43).
Definition f1e_4 : float := S754_finite false 7378697629483821 (-66).
Definition f10 : float := F64.of_Z 10.
Definition f1_267 : float := S754_finite false 5706060727878418 (-52).
Definition f0_000142716 : float := S754_finite false 5265291054447065 (-65).
Definition f1_9068e_08 : float := S754_finite false 5762949382102937 (-78).
Definition f1_097 : float := S754_finite false 4940448791225434 (-52).
Definition f6000 : float := S754_finite false 6597069766656000 (-40).
Definition f0_25 : float := S754_finite false 4503599627370496 (-54).
Definition f0_75 : float := S754_finite false 6755399441055744 (-53).
Definition f100 : float := S754_finite false 7036874417766400 (-46).
Definition f1e_6 : float := S754_finite false 4722366482869645 (-72).
Definition f1e6 : float := S754_finite false 8589934592000000 (-33).
Definition f2 : float := S754_finite false 4503599627370496 (-51).

(** [a op= b] on a float array: [b] is broadcast to the shape of [a] or
    the assignment raises ValueError *)
Definition inplace (op : float -> float -> float) (a b : list float)
  : result (list float) :=
  if (length a =? length b)%nat then Ok (zip_with op a b)
  else match b with
       | [y] => Ok (map (fun x => op x y) a)
       | _ => Raise ValueError
       end.

(** [a[i]] for a row index that is not negative *)
Definition row (a : list (list float)) (i : nat) : result (list float) :=
  match a !! i with
  | Some r => Ok r
  | None => Raise IndexError
  end.

(** ** exp_diff_desi *)

(** the four accumulators *)
Record totals : Type := {
  fltotodd : list float;
  ivtotodd : list float;
  fltoteven : list float;
  ivtoteven : list float;
}.

(** the body of the loop over [iexp]; [fl] and [iv] are
    [file["FL"][mask_targetid]] and [file["IV"][mask_targetid]] *)
Definition accumulate (fl iv : list (list float)) (t : totals) (iexp : nat)
  : result totals :=
  do flexp <- row fl iexp;
  do ivexp <- row iv iexp;
  do prod <- Np.binop F64.mul flexp ivexp;
  if Nat.odd iexp then
    do fo <- inplace F64.add (fltotodd t) prod;
    do io <- inplace F64.add (ivtotodd t) ivexp;
    Ok {| fltotodd := fo; ivtotodd := io;
          fltoteven := fltoteven t; ivtoteven := ivtoteven t |}
  else
    do fe <- inplace F64.add (fltoteven t) prod;
    do ie <- inplace F64.add (ivtoteven t) ivexp;
    Ok {| fltotodd := fltotodd t; ivtotodd := ivtotodd t;
          fltoteven := fe; ivtoteven := ie |}.

Fixpoint accumulate_all (fl iv : list (list float)) (iexps : list nat) (t : totals)
  : result totals :=
  match iexps with
  | [] => Ok t
  | iexp :: rest => do t' <- accumulate fl iv t iexp; accumulate_all fl iv rest t'
  end.

(** [w = ivtot > 0; fltot[w] /= ivtot[w]] *)
Definition normalize (fltot ivtot : list float) : list float :=
  zip_with (fun f i => if gtb i F64.zero then F64.div f i else f) fltot ivtot.

(** [alpha]: 1, or [np.sqrt(4.*n_even*(n_even+1))/nexp] for an odd number
    of exposures *)
Definition alpha (nexp : nat) : float :=
  if Nat.odd nexp then
    let n_even := (Z.of_nat nexp - 1) / 2 in
    F64.div (sqrt (F64.mul (F64.mul f4 (F64.of_Z n_even)) (F64.of_Z (n_even + 1))))
            (F64.of_Z (Z.of_nat nexp))
  else F64.one.

(** [exp_diff_desi], for the [npix = file["FL"].shape[1]] pixels of a
    spectrum: what is printed and the difference spectrum *)
Definition exp_diff_desi (fl iv : list (list float)) (npix : nat)
  : list string * result (list float) :=
  let nexp := length fl in
  let printed := if (nexp <? 2)%nat
                 then ["DBG : not enough exposures for diff"] else [] in
  let zeros := replicate npix F64.zero in
  (printed,
   do t <- accumulate_all fl iv (seq 0 (2 * (nexp / 2)))
             {| fltotodd := zeros; ivtotodd := zeros;
                fltoteven := zeros; ivtoteven := zeros |};
   let odd := normalize (fltotodd t) (ivtotodd t) in
   let even := normalize (fltoteven t) (ivtoteven t) in
   Ok (zip_with (fun e o => F64.mul (F64.mul f0_5 (F64.sub e o)) (alpha nexp))
         even odd)).

Section WithEnv.
Context `{Pk1dEnv}.

(** ** spectral_resolution *)

(** the correction factor of one pixel for the plateau value [c] and the
    distance [k] of the fibre to the edge of its spectrograph *)
Definition edge_correction (k : Z) (c : float) : float :=
  F64.add (F64.add F64.one (F64.mul (F64.sub c F64.one) f0_25))
          (F64.div (F64.mul (F64.mul (F64.sub c F64.one) f0_75) (F64.of_Z k)) f100).

(** [spectral_resolution(wdisp, with_correction, fiber, ll)]; a call with a
    correction passes [fiber] and [ll] *)
Definition spectral_resolution (wdisp : list float) (with_correction : bool)
  (fiber : Z) (ll : list float) : result (list float) :=
  let reso :=
    map (fun w => F64.mul (F64.mul (F64.div (F64.mul w speed_light) f1000) f1e_4)
                          (np_log f10)) wdisp in
  if with_correction then
    let wave := map (np_power f10) ll in
    let corrPlateau0 :=
      map (fun w => F64.add (F64.sub f1_267 (F64.mul f0_000142716 w))
                            (F64.mul (F64.mul f1_9068e_08 w) w)) wave in
    let corrPlateau :=
      zip_with (fun w c => if gtb w f6000 then f1_097 else c) wave corrPlateau0 in
    let fibnum := fiber mod 500 in
    let corr :=
      if fibnum <? 100 then map (edge_correction fibnum) corrPlateau
      else if 400 <? fibnum then map (edge_correction (500 - fibnum)) corrPlateau
      else corrPlateau in
    inplace F64.mul reso corr
  else Ok reso.

(** ** spectral_resolution_desi *)

(** [np.clip(x, lo, hi)] on one value; NaN stays NaN *)
Definition clip (lo hi x : float) : float :=
  if F64.is_nan x then x
  else if F64.ltb x lo then lo
  else if F64.ltb hi x then hi
  else x.

(** [a[i]] for any Python index: a negative one counts from the end *)
Definition py_row (a : list (list float)) (i : Z) : result (list float) :=
  let n := Z.of_nat (length a) in
  if (0 <=? i) && (i <? n) then row a (Z.to_nat i)
  else if (- n <=? i) && (i <? 0) then row a (Z.to_nat (n + i))
  else Raise IndexError.

(** [np.sqrt(k/2.0/sp.log(reso[c][:]/reso[d][:]))] *)
Definition rms_term (reso : list (list float)) (k : float) (c d : Z)
  : result (list float) :=
  do rc <- py_row reso c;
  do rd <- py_row reso d;
  do ratio <- Np.binop F64.div rc rd;
  Ok (map (fun x => sqrt (F64.div (F64.div k f2) (np_log x))) ratio).

(** [spectral_resolution_desi(reso_matrix, ll)]; [ll] is not used *)
Definition spectral_resolution_desi (reso_matrix : list (list float)) (ll : list float)
  : result (list float) :=
  let reso := map (map (clip f1e_6 f1e6)) reso_matrix in
  let c := Z.of_nat (length reso) / 2 in
  do t1 <- rms_term reso F64.one c (c - 1);
  do t2 <- rms_term reso f4 c (c - 2);
  do s12 <- Np.binop F64.add t1 t2;
  do t3 <- rms_term reso F64.one c (c + 1);
  do s123 <- Np.binop F64.add s12 t3;
  do t4 <- rms_term reso f4 c (c + 2);
  do s <- Np.binop F64.add s123 t4;
  Ok (map (fun x => F64.div x f4) s).

End WithEnv.
End PrepPk1d.

(* ===================================================================== *)
(** * expected_fluxes.dr16_fixed_eta_varlss_fudge_expected_flux *)
(* ===================================================================== *)

Module Dr16FixedEtaVarlssFudge.
Section Defaults.
(** the values of the option dicts, with the integer 1 among them *)
Context {V : Type} (int_one : V).

(** [d.update(d')]: the entries of [d'] win *)
Definition update (d d' : gmap string V) : gmap string V := d' ∪ d.

(** the module-level [defaults]: a copy of the defaults of the fixed-eta
    class, updated with those of the fixed-fudge class ([defaults2]), those
    of the fixed-var_lss class ([defaults3]) and the number of iterations *)
Definition defaults (defaults1 defaults2 defaults3 : gmap string V)
  : gmap string V :=
  update (update (update defaults1 defaults2) defaults3)
         {[ "num iterations" := int_one ]}.

End Defaults.
End Dr16FixedEtaVarlssFudge.

(* ===================================================================== *)
(** * Lookups and predicates used to state further properties *)
(* ===================================================================== *)

(** [data[p]] on the dict built by the driver, [None] for [p not in data] *)
Fixpoint dict_get (p : Z) (data : list (Z * list delta)) : option (list delta) :=
  match data with
  | [] => None
  | (q, ds) :: rest => if p =? q then Some ds else dict_get p rest
  end.

(** the forests of [dps], in order, whose pixel is [p] *)
Definition members (p : Z) (dps : list (delta * Z)) : list delta :=
  map fst (List.filter (fun dp => dp.2 =? p) dps).

(** the dict after the loop, in terms of the processed forests [done] and
    their pixels [pd] *)
Definition bucketed (data : list (Z * list delta)) (done : list delta) (pd : list Z)
  : Prop :=
  NoDup (map fst data) /\
  Permutation (concat (map snd data)) done /\
  forall q, dict_get q data = match members q (zip done pd) with
                              | [] => None
                              | l => Some l
                              end.

(** [d.we *= correction] is defined: the weights have the length of the
    log-wavelength array, or that array has one entry, which broadcasts *)
Definition weights_broadcast (d : delta) : bool :=
  (length (d_we d) =? length (d_ll d))%nat || (length (d_ll d) =? 1)%nat.

(** the four accumulators of [exp_diff_desi] have [npix] pixels each *)
Definition totals_shape (npix : nat) (t : PrepPk1d.totals) : Prop :=
  length (PrepPk1d.fltotodd t) = npix /\ length (PrepPk1d.ivtotodd t) = npix /\
  length (PrepPk1d.fltoteven t) = npix /\ length (PrepPk1d.ivtoteven t) = npix.

(** the distance of a fibre to the nearer edge of its spectrograph of 500
    fibres, capped at 100 *)
Definition edge_distance (fiber : Z) : Z :=
  Z.min 100 (Z.min (fiber mod 500) (500 - fiber mod 500)).

(* ===================================================================== *)
(** * Reference statements, in the words of the specification *)
(* ===================================================================== *)

Section Reference.
Context `{Pylya}.

(** the forest after preprocessing, as the specification describes it:
    derived redshift and comoving distance per pixel, weight times the
    redshift-evolution correction, projection when the toggle is on *)
Definition spec_preprocessed (a : args) (d : delta) : delta :=
  let z := map (fun ll => F64.sub (F64.div (power (F64.of_Z 10) ll) (a_lambda_abs a))
                                  F64.one) (d_ll d) in
  let correction :=
    map (fun zi => power (F64.div (F64.add F64.one zi) (F64.add F64.one (a_z_ref a)))
                         (F64.sub (a_z_evol a) F64.one)) z in
  let d1 := {| d_ra := d_ra d; d_dec := d_dec d; d_ll := d_ll d;
               d_we := zip_with F64.mul (d_we d) correction;
               d_de := d_de d; d_z := z;
               d_r_comov := map (r_comoving (a_fid_Om a)) z |} in
  if a_no_project a then d1 else project d1.

End Reference.

(** the value of bin [j] of a row *)
Definition bin (j : nat) (row : list float) : float := default F64.zero (row !! j).

Definition zero_or_nan (x : float) : bool := F64.is_zero x || F64.is_nan x.

(** a weight of the data model: a float64 value with [0 <= x], that is a
    zero, a positive number of the format or plus infinity, and not NaN *)
Definition nonneg (x : float) : bool :=
  valid_binary F64.prec F64.emax x && SFleb F64.zero x.

(** what a running sum of such weights is: not NaN, not negative, and with
    an exponent the format has *)
Definition nonneg_sum (x : float) : Prop :=
  match x with
  | S754_zero _ => True
  | S754_infinity s => s = false
  | S754_nan => False
  | S754_finite s _ e => s = false /\ emin F64.prec F64.emax <= e
  end.

(** every row of the result of one cell has [n] bins *)
Definition cell_shape (n : nat) (c : cell_cf) : Prop :=
  length (c_we c) = n /\ length (c_da c) = n /\ length (c_rp c) = n /\
  length (c_rt c) = n /\ length (c_z c) = n.

(** the sum over the cells of the weight in bin [j] *)
Definition spec_summed_weight (cfs : list cell_cf) (j : nat) : float :=
  Np.sum (map (fun c => bin j (c_we c)) cfs).

(** the weighted sum over the cells of the quantity [x] in bin [j], divided
    by the summed weight *)
Definition spec_weighted_mean (x : cell_cf -> list float) (cfs : list cell_cf)
  (j : nat) : float :=
  F64.div (Np.sum (map (fun c => F64.mul (bin j (x c)) (bin j (c_we c))) cfs))
          (spec_summed_weight cfs j).

(** the second table as the specification describes it, for results with
    [n] bins: one summed weight and one normalized correlation value per
    bin *)
Definition spec_second_table (n : nat) (cfs : list cell_cf)
  : list float * list float :=
  (map (spec_summed_weight cfs) (seq 0 n),
   map (spec_weighted_mean c_da cfs) (seq 0 n)).

(** the positions, counted from [index], of the elements of [l] that
    satisfy [bad] *)
Fixpoint positions {A} (bad : A -> bool) (index : nat) (l : list A) : list nat :=
  match l with
  | [] => []
  | x :: l' =>
      if bad x then index :: positions bad (S index) l'
      else positions bad (S index) l'
  end.

Section ReferencePicca.
Context `{Picca}.

(** a forest is too short or the sum of flux times ivar is NaN *)
Definition spec_fails_quality (min_num_pix : Z) (f : forest) : bool :=
  (Z.of_nat (length (f_flux f)) <? min_num_pix)
  || F64.is_nan (np_sum (zip_with F64.mul (f_flux f) (f_ivar f))).

(** the continuum fit of a forest left a reason for its failure *)
Definition spec_bad_continuum (f : forest) : bool :=
  match f_bad_continuum_reason f with
  | Some _ => true
  | None => false
  end.

(** [d] with its forests replaced by those that do not satisfy [bad], in
    their order *)
Definition spec_without (bad : forest -> bool) (d : Data.data) : Data.data :=
  {| Data.analysis_type := Data.analysis_type d;
     Data.forests := List.filter (fun f => negb (bad f)) (Data.forests d);
     Data.min_num_pix := Data.min_num_pix d |}.

(** the entry of a 2-D array at row [i], column [j] *)
Definition at2 {A} (a : list (list A)) (i j : nat) : option A :=
  a !! i ≫= fun row => row !! j.

(** no entry of a 2-D array is NaN *)
Definition no_nan (a : list (list float)) : Prop :=
  Forall (Forall (fun x => F64.is_nan x = false)) a.

(** the inverse variance and the flux of one pixel as the reader stores
    them, from the flux [x], inverse variance [v] and mask [m] of the file *)
Definition spec_stored_ivar (x v : float) (m : Z) : float :=
  let masked := F64.mul v (F64.of_bool (m =? 0)) in
  if F64.is_nan x || F64.is_nan masked then F64.zero else masked.

Definition spec_stored_flux (x v : float) (m : Z) : float :=
  let masked := F64.mul v (F64.of_bool (m =? 0)) in
  if F64.is_nan x || F64.is_nan masked then F64.zero else x.

(** the healpix id of a forest at resolution [nside] *)
Definition spec_healpix (nside : Z) (f : forest) : Z :=
  hp_ang2pix nside (F64.sub (F64.div F64.pi (F64.of_Z 2)) (f_dec f)) (f_ra f).

(** the mean number of forests per occupied healpix pixel at [nside] *)
Definition spec_mean_num_obj (nside : Z) (fs : list forest) : float :=
  F64.div (F64.of_Z (Z.of_nat (length fs)))
          (F64.of_Z (Z.of_nat (Np.n_unique (map (spec_healpix nside) fs)))).

(** the mean at [nside] is below the target of 500 *)
Definition spec_sparse (nside : Z) (fs : list forest) : bool :=
  F64.ltb (spec_mean_num_obj nside fs) (F64.of_Z 500).

End ReferencePicca.

(* ===================================================================== *)
(** * Stand-ins for the collaborators, to run the models on examples *)
(* ===================================================================== *)

(** a one-bin result with weight [w], the same value [x] for the
    correlation and the mean separations, and mean redshift 2 *)
Definition one_bin_cell (w x : float) : cell_cf :=
  {| c_we := [w]; c_da := [x]; c_rp := [x]; c_rt := [x]; c_z := [F64.of_Z 2] |}.

(** the accumulator stand-in: cell 8 carries the weight 2^53, every other
    cell the weight 1 and the value 3 *)
Definition stub_cf (p : list Z) : cell_cf :=
  match p with
  | [8] => one_bin_cell (F64.of_Z (2 ^ 53)) (F64.of_Z 1)
  | _ => one_bin_cell (F64.of_Z 1) (F64.of_Z 3)
  end.

(** a linear distance-redshift relation, the identity for arcsin and the
    first-order expansion of the power around 1 *)
Definition stub_pylya : Pylya :=
  {| boss_lambda_min := F64.of_Z 3600;
     lya := S754_finite false 5346573202153800 (-42);
     r_comoving := fun Om z => F64.mul (F64.of_Z 3000) z;
     arcsin := fun x => x;
     power := fun x y => F64.add F64.one (F64.mul y (F64.sub x F64.one));
     ang2pix := fun nside th phi => 0;
     project := fun d => d;
     cf_cf := fun g data p => stub_cf p |}.

Definition stub_args : args :=
  DoCf.default_args (H := stub_pylya) "cf.fits" "deltas".

Definition stub_globals : cf_globals := DoCf.configure (H := stub_pylya) stub_args.

(** a forest of two pixels at log-wavelengths 0 and 1 with weights 1 and 2 *)
Definition stub_delta : delta :=
  {| d_ra := F64.zero; d_dec := F64.zero;
     d_ll := [F64.zero; F64.one];
     d_we := [F64.of_Z 1; F64.of_Z 2];
     d_de := [F64.of_Z 1; F64.of_Z 1];
     d_z := []; d_r_comov := [] |}.

(** the parser of decimal digits for [int], the identity for [lower], the
    left-to-right sum and a single healpix pixel *)
Fixpoint digits (s : string) (acc : Z) : option Z :=
  match s with
  | EmptyString => Some acc
  | String c s' =>
      let n := Z.of_N (Ascii.N_of_ascii c) - 48 in
      if (0 <=? n) && (n <=? 9) then digits s' (10 * acc + n) else None
  end.

Definition stub_picca : Picca :=
  {| ABSORBER_IGM := {[ "LYA" := S754_finite false 5346573202153800 (-42) ]};
     py_int := fun s => match s with EmptyString => None | _ => digits s 0 end;
     py_lower := fun s => s;
     np_sum := Np.sum;
     hp_ang2pix := fun nside th phi => 0 |}.

Definition stub_forest (id : Z) (flux ivar : list float) (reason : option string)
  : forest :=
  {| f_los_id := id; f_ra := F64.zero; f_dec := F64.zero;
     f_flux := flux; f_ivar := ivar;
     f_bad_continuum_reason := reason; f_healpix := None |}.

(** four forests under a minimum of two pixels: one too short, one with a
    NaN flux, one good, one whose continuum fit failed *)
Definition stub_data : Data.data :=
  {| Data.analysis_type := "BAO 3D";
     Data.forests :=
       [stub_forest 1 [F64.one] [F64.one] None;
        stub_forest 2 [F64.nan; F64.one] [F64.one; F64.one] None;
        stub_forest 3 [F64.one; F64.of_Z 2] [F64.one; F64.one] None;
        stub_forest 4 [F64.one; F64.of_Z 2] [F64.one; F64.one]
          (Some "negative mean continuum")];
     Data.min_num_pix := 2 |}.

(** a spectra file with the B band only: one spectrum of three pixels, the
    second with a NaN flux, the third masked *)
Definition stub_hdul : gmap string hdu :=
  {[ "B_WAVELENGTH" := Vector [F64.of_Z 3600; F64.of_Z 3601; F64.of_Z 3602];
     "B_FLUX" := Image [[F64.one; F64.nan; F64.of_Z 5]];
     "B_IVAR" := Image [[F64.of_Z 2; F64.of_Z 3; F64.of_Z 4]];
     "B_MASK" := Mask [[0; 0; 1]] ]}.

Definition stub_spec : spec_dict :=
  {[ "WAVELENGTHL" := Vector [F64.of_Z 3600; F64.of_Z 3601; F64.of_Z 3602];
     "FLUX" := Image [[F64.one; F64.zero; F64.of_Z 5]];
     "IVAR" := Image [[F64.of_Z 2; F64.zero; F64.zero]] ]}.

(** the speed of light in m/s, and first-order stand-ins for the
    logarithm and the power *)
Definition stub_pk1d : Pk1dEnv :=
  {| speed_light := F64.of_Z 299792458;
     np_log := fun x => F64.sub x F64.one;
     np_power := fun x y => F64.add F64.one (F64.mul y (F64.sub x F64.one)) |}.

(** a forest of one pixel that [find_nside] has put in pixel [healpix] *)
Definition stub_pixel_forest (id healpix : Z) : forest :=
  {| f_los_id := id; f_ra := F64.zero; f_dec := F64.zero;
     f_flux := [F64.one]; f_ivar := [F64.one];
     f_bad_continuum_reason := None; f_healpix := Some healpix |}.

(** a catalogue row for the target [targetid] *)
Definition stub_entry (targetid : Z) : entry :=
  {| e_targetid := targetid; e_ra := F64.zero; e_dec := F64.zero;
     e_z := F64.of_Z 2; e_petal := 0; e_tile := 1; e_night := 20200101 |}.

(** a survey of one quasar, target 7, whose every spectra file opens and
    is the file above *)
Definition stub_survey : DesiSurvey :=
  {| ztruth_catalogue := fun _ => Ok [stub_entry 7];
     ang2pix_nest := fun nside theta phi => Ok 0;
     fits_open := fun name => Some {| sf_targetid := Ok [7]; sf_hdul := stub_hdul |};
     read_from_minisv_desi := fun dc catalogue => ([], Ok []) |}.

(* ===================================================================== *)
(** * Properties *)
(* ===================================================================== *)

Section DoCfProperties.
Context `{Pylya}.

(** ** Worker-pool size *)

(** C8, as the driver implements it: when [--nproc] is not given, the
    size handed to the pool is the floor of half the CPU count, and the pool
    is created with that size whenever the machine has at least two CPUs
    (on a single CPU the size is 0 and the pool refuses it). *)
Theorem auto_pool_size_is_half_cpu_count (cpu_count : Z) (a : args) :
  a_nproc a = None ->
  DoCf.resolve_nproc cpu_count a = cpu_count / 2 /\
  DoCf.make_pool cpu_count a =
    if cpu_count <? 2 then Raise ValueError else Ok (cpu_count / 2).
Proof.
  intros Hnone. unfold DoCf.make_pool, DoCf.resolve_nproc, DoCf.Pool.
  rewrite Hnone. split; [reflexivity|].
  destruct (Z.ltb_spec cpu_count 2) as [Hlt|Hge];
    destruct (Z.ltb_spec (cpu_count / 2) 1) as [Hlt'|Hge']; try reflexivity.
  - exfalso. assert (cpu_count / 2 < 1) by (apply Z.div_lt_upper_bound; lia). lia.
  - exfalso. assert (1 <= cpu_count / 2) by (apply Z.div_le_lower_bound; lia). lia.
Qed.

(** ** Maximum angle *)

(** C4: [cf.angmax] is the arcsine of [rt_max] over the comoving distance,
    in the fiducial cosmology, at the redshift
    [boss_lambda_min / lambda_abs - 1]; [rt_max] is the value of the command
    line. *)
Theorem angmax_formula (a : args) :
  let g := DoCf.configure a in
  let z_min := F64.sub (F64.div boss_lambda_min (a_lambda_abs a)) F64.one in
  cf_rt_max g = a_rt_max a /\
  cf_angmax g = arcsin (F64.div (a_rt_max a) (r_comoving (a_fid_Om a) z_min)).
Proof. split; reflexivity. Qed.

(** ** Preprocessing *)

Lemma pixels_length (nside : Z) (dels : list delta) :
  length (DoCf.pixels nside dels) = length dels.
Proof.
  unfold DoCf.pixels. rewrite length_zip_with, !length_map. lia.
Qed.

Lemma preprocess_one_spec (a : args) (d : delta) :
  length (d_we d) = length (d_ll d) ->
  DoCf.preprocess_one a (DoCf.configure a) d = Ok (spec_preprocessed a d).
Proof.
  intros Hlen. unfold DoCf.preprocess_one, DoCf.imul, DoCf.evolution, DoCf.redshift.
  rewrite !length_map, Hlen, Nat.eqb_refl. simpl.
  unfold spec_preprocessed. destruct (a_no_project a); reflexivity.
Qed.

Lemma preprocess_loop_spec (a : args) (dps : list (delta * Z)) :
  Forall (fun dp => length (d_we dp.1) = length (d_ll dp.1)) dps ->
  forall data done, exists data',
    DoCf.preprocess_loop a (DoCf.configure a) dps data done
    = Ok (data', done ++ map (fun dp => spec_preprocessed a dp.1) dps).
Proof.
  induction 1 as [|[d p] dps Hd _ IH]; intros data done; simpl.
  - exists data. by rewrite app_nil_r.
  - simpl in Hd. rewrite (preprocess_one_spec a d Hd). simpl.
    destruct (IH (DoCf.dict_append p (spec_preprocessed a d) data)
                 (done ++ [spec_preprocessed a d])) as [data' ->].
    exists data'. by rewrite <- app_assoc.
Qed.

(** C7: every forest of the input comes out of the preprocessing loop with
    its redshift [10^ll / lambda_abs - 1], its comoving distance at that
    redshift, its weight multiplied by
    [((1+z)/(1+z_ref))^(alpha-1)] with [alpha] the value of [--z-evol],
    and projected exactly when [--no-project] is absent, which is the
    default.  The per-pixel arrays of a forest share their length. *)
Theorem preprocess_mutates_every_forest (a : args) (dels : list delta) :
  Forall (fun d => length (d_we d) = length (d_ll d)) dels ->
  cf_alpha (DoCf.configure a) = a_z_evol a /\
  cf_zref (DoCf.configure a) = a_z_ref a /\
  (forall out in_dir, a_no_project (DoCf.default_args out in_dir) = false) /\
  exists data,
    DoCf.preprocess a (DoCf.configure a) dels
    = Ok (data, map (spec_preprocessed a) dels).
Proof.
  intros Hlen. do 3 (split; [reflexivity|]).
  unfold DoCf.preprocess.
  set (pix := DoCf.pixels _ dels).
  assert (Hfst : (zip dels pix).*1 = dels).
  { apply fst_zip. subst pix. rewrite pixels_length. lia. }
  destruct (preprocess_loop_spec a (zip dels pix)) with (data := @nil (Z * list delta))
    (done := @nil delta) as [data' Heq].
  - apply Forall_forall. intros [d p] Hin. simpl.
    rewrite Forall_forall in Hlen. apply Hlen.
    rewrite <- Hfst. apply list_elem_of_fmap.
    exists (d, p). split; [reflexivity | exact Hin].
  - exists data'. rewrite Heq. simpl. f_equal. f_equal.
    rewrite <- Hfst at 2. symmetry. apply (map_map fst (spec_preprocessed a)).
Qed.

(** ** Reduction *)

Lemma fold_zip_add_lookup (rows : list (list float)) :
  forall (acc : list float) (j : nat) (a : float),
    Forall (fun r => length r = length acc) rows ->
    acc !! j = Some a ->
    fold_left (zip_with F64.add) rows acc !! j
    = Some (fold_left F64.add (map (bin j) rows) a).
Proof.
  induction rows as [|r rows IH]; intros acc j a Hlen Hj; simpl; [exact Hj|].
  apply Forall_cons in Hlen as [Hr Hrows].
  assert (Hlt : (j < length r)%nat).
  { rewrite Hr. eapply lookup_lt_Some, Hj. }
  destruct (lookup_lt_is_Some_2 r j Hlt) as [x Hx].
  apply IH.
  - rewrite length_zip_with, Hr, Nat.min_id. exact Hrows.
  - rewrite lookup_zip_with, Hj, Hx. unfold bin. rewrite Hx. reflexivity.
Qed.

Lemma sum_axis0_lookup (n : nat) (rows : list (list float)) (j : nat) :
  Forall (fun r => length r = n) rows -> (j < n)%nat ->
  Np.sum_axis0 n rows !! j = Some (Np.sum (map (bin j) rows)).
Proof.
  intros Hlen Hj. unfold Np.sum_axis0, Np.sum.
  apply fold_zip_add_lookup.
  - rewrite length_replicate. exact Hlen.
  - apply lookup_replicate. auto.
Qed.

Lemma sum_axis0_length (n : nat) (rows : list (list float)) :
  Forall (fun r => length r = n) rows -> length (Np.sum_axis0 n rows) = n.
Proof.
  unfold Np.sum_axis0. intros Hlen.
  assert (Hacc : length (replicate n F64.zero) = n) by apply length_replicate.
  revert Hacc. generalize (replicate n F64.zero).
  induction Hlen as [|r rows Hr _ IH]; intros acc Hacc; simpl; [exact Hacc|].
  apply IH. rewrite length_zip_with. lia.
Qed.

Lemma zip2_rows (x : cell_cf -> list float) (n : nat) (cfs : list cell_cf) (j : nat) :
  Forall (fun c => length (x c) = n /\ length (c_we c) = n) cfs ->
  Forall (fun r => length r = n) (Np.zip2 F64.mul (map x cfs) (map c_we cfs)) /\
  ((j < n)%nat ->
   map (bin j) (Np.zip2 F64.mul (map x cfs) (map c_we cfs))
   = map (fun c => F64.mul (bin j (x c)) (bin j (c_we c))) cfs).
Proof.
  unfold Np.zip2.
  induction 1 as [|c cfs [Hx Hw] _ [IH1 IH2]]; simpl; [split; [constructor | reflexivity]|].
  split.
  - constructor; [|exact IH1]. rewrite length_zip_with. lia.
  - intros Hj. f_equal; [|exact (IH2 Hj)].
    unfold bin. rewrite lookup_zip_with.
    destruct (lookup_lt_is_Some_2 (x c) j) as [a ->]; [lia|].
    destruct (lookup_lt_is_Some_2 (c_we c) j) as [b ->]; [lia|].
    reflexivity.
Qed.

(** the normalization of one quantity, lines 143-145, bin by bin *)
Lemma normalized_lookup (x : cell_cf -> list float) (n : nat) (cfs : list cell_cf)
  (j : nat) :
  Forall (fun c => length (x c) = n /\ length (c_we c) = n) cfs -> (j < n)%nat ->
  zip_with F64.div (Np.sum_axis0 n (Np.zip2 F64.mul (map x cfs) (map c_we cfs)))
                   (Np.sum_axis0 n (map c_we cfs)) !! j
  = Some (spec_weighted_mean x cfs j).
Proof.
  intros Hshape Hj.
  destruct (zip2_rows x n cfs j Hshape) as [Hrows Hcol].
  assert (Hwes : Forall (fun r => length r = n) (map c_we cfs)).
  { apply Forall_fmap. eapply Forall_impl; [exact Hshape|]. by intros c [_ ?]. }
  rewrite lookup_zip_with, (sum_axis0_lookup n _ j Hrows Hj),
    (sum_axis0_lookup n _ j Hwes Hj). simpl.
  unfold spec_weighted_mean, spec_summed_weight.
  rewrite (Hcol Hj). do 3 f_equal. apply (map_map c_we (bin j)).
Qed.

Lemma cell_shape_pair (x : cell_cf -> list float) (n : nat) (cfs : list cell_cf) :
  (forall c, cell_shape n c -> length (x c) = n) ->
  Forall (cell_shape n) cfs ->
  Forall (fun c => length (x c) = n /\ length (c_we c) = n) cfs.
Proof.
  intros Hx Hs. eapply Forall_impl; [exact Hs|].
  intros c Hc. split; [by apply Hx|]. by destruct Hc.
Qed.

(** the first table: the reduction succeeds and the three means are, bin by
    bin, weighted sums over the cells divided by the summed weight *)
Lemma reduce_means (g : cf_globals) (n : nat) (cfs : list cell_cf) :
  cfs <> [] -> Forall (cell_shape n) cfs ->
  exists out,
    DoCf.reduce g cfs = Ok out /\
    (forall j, (j < n)%nat ->
       DoCf.o_rp out !! j = Some (spec_weighted_mean c_rp cfs j) /\
       DoCf.o_rt out !! j = Some (spec_weighted_mean c_rt cfs j) /\
       DoCf.o_z out !! j = Some (spec_weighted_mean c_z cfs j)).
Proof.
  intros Hne Hshape. destruct cfs as [|c0 cfs0] eqn:E; [done|]. rewrite <- E in *.
  assert (Hn : length (c_we c0) = n).
  { rewrite E in Hshape. apply Forall_cons in Hshape as [[? _] _]. done. }
  eexists. split.
  - rewrite E at 1. unfold DoCf.reduce. rewrite <- E. reflexivity.
  - simpl. rewrite Hn. intros j Hj. repeat split.
    + apply normalized_lookup; [|done].
      apply cell_shape_pair; [|done]. by intros c (_ & _ & ? & _).
    + apply normalized_lookup; [|done].
      apply cell_shape_pair; [|done]. by intros c (_ & _ & _ & ? & _).
    + apply normalized_lookup; [|done].
      apply cell_shape_pair; [|done]. by intros c (_ & _ & _ & _ & ?).
Qed.

(** C1, as the driver implements it: for a non-empty list of per-cell
    results of one shape, the reduction succeeds; the mean parallel
    separation, mean transverse separation and mean redshift of every bin
    are the sum over the cells of value times weight divided by the sum over
    the cells of the weight; the second table holds, cell by cell and
    unreduced, the weight row and the correlation row that each task
    returned. *)
Theorem reduce_normalizes_means_and_stores_cells
  (g : cf_globals) (n : nat) (cfs : list cell_cf) :
  cfs <> [] -> Forall (cell_shape n) cfs ->
  exists out,
    DoCf.reduce g cfs = Ok out /\
    (forall j, (j < n)%nat ->
       DoCf.o_rp out !! j = Some (spec_weighted_mean c_rp cfs j) /\
       DoCf.o_rt out !! j = Some (spec_weighted_mean c_rt cfs j) /\
       DoCf.o_z out !! j = Some (spec_weighted_mean c_z cfs j)) /\
    DoCf.o_we out = map c_we cfs /\
    DoCf.o_da out = map c_da cfs /\
    length (DoCf.o_we out) = length cfs /\
    DoCf.o_head out = (cf_rp_max g, cf_rt_max g, cf_nt g, cf_np g).
Proof.
  intros Hne Hshape.
  destruct (reduce_means g n cfs Hne Hshape) as (out & Hout & Hbins).
  exists out. split; [exact Hout|]. split; [exact Hbins|].
  destruct cfs as [|c0 cfs0]; [done|].
  unfold DoCf.reduce in Hout. injection Hout as <-. simpl.
  repeat split. by rewrite length_map.
Qed.

(** ** Bins without weight *)

Lemma div_zero_or_nan_by_zero (x y : float) :
  F64.is_zero y = true -> zero_or_nan x = true -> F64.div x y = F64.nan.
Proof. destruct x, y; try discriminate; reflexivity. Qed.

Lemma mul_by_zero (x y : float) :
  F64.is_zero y = true -> zero_or_nan (F64.mul x y) = true.
Proof. destruct x, y; try discriminate; reflexivity. Qed.

Lemma add_zero_or_nan (x y : float) :
  zero_or_nan x = true -> zero_or_nan y = true -> zero_or_nan (F64.add x y) = true.
Proof. destruct x as [[]| | |], y as [[]| | |]; try discriminate; reflexivity. Qed.

Lemma add_zeros (x y : float) :
  F64.is_zero x = true -> F64.is_zero y = true -> F64.is_zero (F64.add x y) = true.
Proof. destruct x as [[]| | |], y as [[]| | |]; try discriminate; reflexivity. Qed.

Lemma sum_zero_or_nan (l : list float) :
  Forall (fun v => zero_or_nan v = true) l -> zero_or_nan (Np.sum l) = true.
Proof.
  unfold Np.sum. assert (Hacc : zero_or_nan F64.zero = true) by reflexivity.
  revert Hacc. generalize F64.zero.
  induction l as [|v l IH]; intros acc Hacc Hl; simpl; [exact Hacc|].
  apply Forall_cons in Hl as [Hv Hl]. apply IH; [|exact Hl].
  by apply add_zero_or_nan.
Qed.

Lemma sum_zeros (l : list float) :
  Forall (fun v => F64.is_zero v = true) l -> F64.is_zero (Np.sum l) = true.
Proof.
  unfold Np.sum. assert (Hacc : F64.is_zero F64.zero = true) by reflexivity.
  revert Hacc. generalize F64.zero.
  induction l as [|v l IH]; intros acc Hacc Hl; simpl; [exact Hacc|].
  apply Forall_cons in Hl as [Hv Hl]. apply IH; [|exact Hl].
  by apply add_zeros.
Qed.

Lemma weighted_mean_of_empty_bin (x : cell_cf -> list float) (cfs : list cell_cf)
  (j : nat) :
  Forall (fun c => F64.is_zero (bin j (c_we c)) = true) cfs ->
  spec_weighted_mean x cfs j = F64.nan.
Proof.
  intros Hz. unfold spec_weighted_mean, spec_summed_weight.
  apply div_zero_or_nan_by_zero.
  - apply sum_zeros, Forall_fmap. exact Hz.
  - apply sum_zero_or_nan, Forall_fmap.
    eapply Forall_impl; [exact Hz|]. intros c Hc. by apply mul_by_zero.
Qed.

(** *** A sum of non-negative weights is zero only if each of them is

    The rounding of [binary_round] shifts a mantissa right by fewer bits
    than it has, as long as the exponent is one of the format; a positive
    mantissa stays positive. *)

Lemma iter_pos_nat {A} (f : A -> A) (p : positive) (x : A) :
  SpecFloat.iter_pos f p x = Nat.iter (Pos.to_nat p) f x.
Proof.
  revert x. induction p as [p IH|p IH|]; intros x; cbn [SpecFloat.iter_pos].
  - rewrite !IH, Pos2Nat.inj_xI.
    replace (2 * Pos.to_nat p)%nat with (Pos.to_nat p + Pos.to_nat p)%nat by lia.
    rewrite Nat.iter_succ_r, Nat.iter_add. reflexivity.
  - rewrite !IH, Pos2Nat.inj_xO.
    replace (2 * Pos.to_nat p)%nat with (Pos.to_nat p + Pos.to_nat p)%nat by lia.
    rewrite Nat.iter_add. reflexivity.
  - reflexivity.
Qed.

Lemma shr_1_keeps_digits (k : nat) :
  forall (mrs : shr_record) (m : positive),
    shr_m mrs = Zpos m -> (k < Pos.to_nat (digits2_pos m))%nat ->
    exists m', shr_m (Nat.iter k shr_1 mrs) = Zpos m'.
Proof.
  induction k as [|k IH]; intros mrs m Hm Hk.
  - exists m. exact Hm.
  - rewrite Nat.iter_succ_r. destruct mrs as [mm r s]. simpl in Hm. subst mm.
    destruct m as [p|p|]; simpl in Hk.
    + apply (IH _ p); [reflexivity|]. rewrite Pos2Nat.inj_succ in Hk. lia.
    + apply (IH _ p); [reflexivity|]. rewrite Pos2Nat.inj_succ in Hk. lia.
    + rewrite Pos2Nat.inj_1 in Hk. lia.
Qed.

Lemma shr_record_of_loc_m (m : Z) (l : location) : shr_m (shr_record_of_loc m l) = m.
Proof. destruct l as [|[]]; reflexivity. Qed.

Lemma shr_fexp_positive (m : positive) (e : Z) (l : location) :
  emin F64.prec F64.emax <= e ->
  exists m',
    shr_m (shr_fexp F64.prec F64.emax (Zpos m) e l).1 = Zpos m' /\
    emin F64.prec F64.emax <= (shr_fexp F64.prec F64.emax (Zpos m) e l).2.
Proof.
  intros He. unfold shr_fexp, shr. cbn [Zdigits2].
  destruct (fexp F64.prec F64.emax (Zpos (digits2_pos m) + e) - e) as [|p|p] eqn:Hn.
  - exists m. split; [apply shr_record_of_loc_m | exact He].
  - cbn [fst snd]. rewrite iter_pos_nat.
    assert (Hp : (Pos.to_nat p < Pos.to_nat (digits2_pos m))%nat).
    { apply Pos2Nat.inj_lt. unfold fexp, emin, F64.prec, F64.emax in *. lia. }
    destruct (shr_1_keeps_digits (Pos.to_nat p) (shr_record_of_loc (Zpos m) l) m
                (shr_record_of_loc_m _ _) Hp) as [m' Hm'].
    exists m'. split; [exact Hm'|]. lia.
  - exists m. split; [apply shr_record_of_loc_m | exact He].
Qed.

Lemma round_nearest_even_positive (m : positive) (l : location) :
  exists m', round_nearest_even (Zpos m) l = Zpos m'.
Proof.
  destruct l as [|[]]; cbn [round_nearest_even].
  - by exists m.
  - destruct (Z.even (Zpos m)); [by exists m | by exists (m + 1)%positive].
  - by exists m.
  - by exists (m + 1)%positive.
Qed.

Lemma binary_round_aux_positive (m : positive) (e : Z) (l : location) :
  emin F64.prec F64.emax <= e ->
  nonneg_sum (binary_round_aux F64.prec F64.emax false (Zpos m) e l) /\
  F64.is_zero (binary_round_aux F64.prec F64.emax false (Zpos m) e l) = false.
Proof.
  intros He. unfold binary_round_aux.
  destruct (shr_fexp_positive m e l He) as (m1 & Hm1 & He1).
  destruct (shr_fexp F64.prec F64.emax (Zpos m) e l) as [mrs1 e1].
  cbn [fst snd] in Hm1, He1. rewrite Hm1.
  destruct (round_nearest_even_positive m1 (loc_of_shr_record mrs1)) as [m2 ->].
  destruct (shr_fexp_positive m2 e1 loc_Exact He1) as (m3 & Hm3 & He3).
  destruct (shr_fexp F64.prec F64.emax (Zpos m2) e1 loc_Exact) as [mrs3 e3].
  cbn [fst snd] in Hm3, He3. rewrite Hm3.
  destruct (e3 <=? F64.emax - F64.prec); split; try reflexivity.
  split; [reflexivity | exact He3].
Qed.

Lemma binary_round_positive (m : positive) (e : Z) :
  emin F64.prec F64.emax <= e ->
  nonneg_sum (binary_round F64.prec F64.emax false m e) /\
  F64.is_zero (binary_round F64.prec F64.emax false m e) = false.
Proof.
  intros He. unfold binary_round, shl_align.
  destruct (fexp F64.prec F64.emax (Zpos (digits2_pos m) + e) - e) eqn:Hn;
    apply binary_round_aux_positive; try exact He.
  unfold fexp, emin, F64.prec, F64.emax in *. lia.
Qed.

Lemma add_nonneg (x y : float) :
  nonneg_sum x -> nonneg_sum y ->
  nonneg_sum (F64.add x y) /\
  (F64.is_zero (F64.add x y) = true -> F64.is_zero x = true /\ F64.is_zero y = true).
Proof.
  intros Hx Hy.
  destruct x as [sx|sx| |sx mx ex], y as [sy|sy| |sy my ey];
    cbn [nonneg_sum] in Hx, Hy; try contradiction.
  - destruct sx, sy; split; done.
  - subst sy. split; [reflexivity | discriminate].
  - destruct Hy as [-> Hy]. split; [by split | discriminate].
  - subst sx. split; [reflexivity | discriminate].
  - subst sx sy. split; [reflexivity | discriminate].
  - subst sx. destruct Hy as [-> Hy]. split; [reflexivity | discriminate].
  - destruct Hx as [-> Hx]. split; [by split | discriminate].
  - subst sy. destruct Hx as [-> Hx]. split; [reflexivity | discriminate].
  - destruct Hx as [-> Hx], Hy as [-> Hy].
    change (F64.add (S754_finite false mx ex) (S754_finite false my ey))
      with (binary_round F64.prec F64.emax false
              (fst (shl_align mx ex (Z.min ex ey)) + fst (shl_align my ey (Z.min ex ey)))
              (Z.min ex ey)).
    destruct (binary_round_positive
                (fst (shl_align mx ex (Z.min ex ey)) + fst (shl_align my ey (Z.min ex ey)))
                (Z.min ex ey) ltac:(lia)) as [Hr Hnz].
    split; [exact Hr|]. rewrite Hnz. discriminate.
Qed.

Lemma fold_add_nonneg (l : list float) :
  forall acc, nonneg_sum acc -> Forall nonneg_sum l ->
    nonneg_sum (fold_left F64.add l acc) /\
    (F64.is_zero (fold_left F64.add l acc) = true ->
     F64.is_zero acc = true /\ Forall (fun x => F64.is_zero x = true) l).
Proof.
  induction l as [|x l IH]; intros acc Hacc Hl; simpl.
  - split; [exact Hacc | intros Hz; split; [exact Hz | constructor]].
  - apply Forall_cons in Hl as [Hx Hl].
    destruct (add_nonneg acc x Hacc Hx) as [Hsum Hzero].
    destruct (IH (F64.add acc x) Hsum Hl) as [Hres Hz].
    split; [exact Hres|]. intros Hfold. destruct (Hz Hfold) as [Hax Hrest].
    destruct (Hzero Hax) as [Ha Hxz]. split; [exact Ha | by constructor].
Qed.

Lemma nonneg_nonneg_sum (x : float) : nonneg x = true -> nonneg_sum x.
Proof.
  unfold nonneg. intros Hx. apply andb_true_iff in Hx as [Hv Hle].
  destruct x as [s|s| |s m e]; simpl in *; try done.
  - by destruct s.
  - destruct s; [discriminate|]. split; [reflexivity|].
    unfold bounded, canonical_mantissa in Hv. apply andb_true_iff in Hv as [Hc _].
    apply Z.eqb_eq in Hc. unfold fexp, emin, F64.prec, F64.emax in *. lia.
Qed.

(** a zero summed weight means that no cell gave the bin any weight *)
Lemma zero_summed_weight_is_empty_bin (cfs : list cell_cf) (j : nat) :
  Forall (fun c => nonneg (bin j (c_we c)) = true) cfs ->
  F64.is_zero (spec_summed_weight cfs j) = true ->
  Forall (fun c => F64.is_zero (bin j (c_we c)) = true) cfs.
Proof.
  intros Hnn Hzero. unfold spec_summed_weight, Np.sum in Hzero.
  destruct (fold_add_nonneg (map (fun c => bin j (c_we c)) cfs) F64.zero) as [_ Hall].
  - exact I.
  - apply Forall_fmap. eapply Forall_impl; [exact Hnn|].
    intros c Hc. by apply nonneg_nonneg_sum.
  - destruct (Hall Hzero) as [_ Hcol]. by apply Forall_fmap in Hcol.
Qed.

(** C3: for per-cell weights as the data model has them (float64 values,
    not negative), the normalization of a bin whose summed weight
    [wes.sum(axis=0)] is zero does not crash: the reduction returns, and the
    three means of that bin are NaN, the value that marks it as empty.  Such
    a bin is one that no cell gave any weight: the division met there is 0/0
    or NaN/0, which float64 answers with NaN and no exception. *)
Theorem zero_weight_bin_is_nan
  (g : cf_globals) (n : nat) (cfs : list cell_cf) (j : nat) :
  cfs <> [] -> Forall (cell_shape n) cfs -> (j < n)%nat ->
  Forall (fun c => nonneg (bin j (c_we c)) = true) cfs ->
  F64.is_zero (bin j (Np.sum_axis0 n (map c_we cfs))) = true ->
  exists out,
    DoCf.reduce g cfs = Ok out /\
    DoCf.o_rp out !! j = Some F64.nan /\
    DoCf.o_rt out !! j = Some F64.nan /\
    DoCf.o_z out !! j = Some F64.nan /\
    Forall (fun c => F64.is_zero (bin j (c_we c)) = true) cfs.
Proof.
  intros Hne Hshape Hj Hnn Hzero.
  assert (Hsum : bin j (Np.sum_axis0 n (map c_we cfs)) = spec_summed_weight cfs j).
  { unfold bin at 1. rewrite (sum_axis0_lookup n (map c_we cfs) j); [|  | exact Hj].
    - simpl. unfold spec_summed_weight. f_equal. apply map_map.
    - apply Forall_fmap. eapply Forall_impl; [exact Hshape|]. by intros c [Hwe _]. }
  rewrite Hsum in Hzero.
  pose proof (zero_summed_weight_is_empty_bin cfs j Hnn Hzero) as Hempty.
  destruct (reduce_means g n cfs Hne Hshape) as (out & Hout & Hbins).
  destruct (Hbins j Hj) as (Hrp & Hrt & Hz).
  exists out. split; [exact Hout|].
  rewrite Hrp, Hrt, Hz.
  rewrite !(weighted_mean_of_empty_bin _ cfs j Hempty).
  repeat split; try reflexivity. exact Hempty.
Qed.

(** ** Fan-out and scheduling *)

Section Schedule.
Context {A B : Type} (f : A -> B) (tasks : list A).

Lemma pool_step_length (slots : list (option B)) (k : nat) :
  length (match tasks !! k with
          | Some t => <[k := Some (f t)]> slots
          | None => slots
          end) = length slots.
Proof. destruct (tasks !! k); [apply length_insert | reflexivity]. Qed.

Lemma pool_fold_length (schedule : list nat) (slots : list (option B)) :
  length (fold_left (fun slots i =>
                       match tasks !! i with
                       | Some t => <[i := Some (f t)]> slots
                       | None => slots
                       end) schedule slots) = length slots.
Proof.
  revert slots. induction schedule as [|k s IH]; intros slots; simpl; [reflexivity|].
  rewrite IH. apply pool_step_length.
Qed.

(** a slot holds the result of its task as soon as the task has finished,
    whatever finished before or after it *)
Lemma pool_fold_lookup (schedule : list nat) :
  forall (slots : list (option B)) (i : nat) (t : A),
    tasks !! i = Some t -> (i < length slots)%nat ->
    fold_left (fun slots i =>
                 match tasks !! i with
                 | Some t => <[i := Some (f t)]> slots
                 | None => slots
                 end) schedule slots !! i
    = if decide (i ∈ schedule) then Some (Some (f t)) else slots !! i.
Proof.
  induction schedule as [|k s IH]; intros slots i t Ht Hi; simpl.
  - destruct (decide (i ∈ [])) as [Hin|_]; [by apply elem_of_nil in Hin | reflexivity].
  - rewrite (IH _ i t Ht) by (rewrite pool_step_length; exact Hi).
    destruct (decide (i ∈ s)) as [Hs|Hs].
    + rewrite decide_True by (by right). reflexivity.
    + destruct (decide (k = i)) as [->|Hne].
      * rewrite Ht, list_lookup_insert_eq by exact Hi.
        rewrite decide_True by (by left). reflexivity.
      * rewrite decide_False by (rewrite elem_of_cons; intros [?|?]; congruence).
        destruct (tasks !! k); [by apply list_lookup_insert_ne | reflexivity].
Qed.

Lemma pool_map_complete (schedule : list nat) :
  Permutation schedule (seq 0 (length tasks)) ->
  DoCf.pool_map f tasks schedule = Some (map f tasks).
Proof.
  intros Hperm. unfold DoCf.pool_map.
  assert (Hrun : DoCf.pool_run f tasks schedule = Some <$> (f <$> tasks)).
  { apply list_eq. intros i. unfold DoCf.pool_run.
    destruct (tasks !! i) as [t|] eqn:Ht.
    - rewrite (pool_fold_lookup schedule _ i t Ht).
      + rewrite decide_True.
        * by rewrite !list_lookup_fmap, Ht.
        * rewrite Hperm. apply elem_of_seq. apply lookup_lt_Some in Ht. lia.
      + rewrite length_replicate. eapply lookup_lt_Some, Ht.
    - rewrite !list_lookup_fmap, Ht. simpl.
      apply lookup_ge_None. rewrite pool_fold_length, length_replicate.
      by apply lookup_ge_None. }
  rewrite Hrun. apply mapM_fmap_Some. reflexivity.
Qed.

End Schedule.

(** C2, as the driver implements it: whatever the order in which the
    workers finish, the reduced output is the reduction of the per-cell
    results taken in the order of the task list; that order is the order in
    which the dicts yield their keys, a rearrangement of the cell ids. *)
Theorem reduction_independent_of_schedule `{DoCf.PyDict}
  (g : cf_globals) (data : list (Z * list delta)) (schedule : list nat) :
  Permutation schedule (seq 0 (length (DoCf.cpu_data_values data))) ->
  DoCf.run_cf g data schedule
  = Some (DoCf.reduce g (map (DoCf.corr_func g data) (DoCf.cpu_data_values data))) /\
  Permutation (concat (DoCf.cpu_data_values data)) (map fst data).
Proof.
  intros Hperm. split.
  - unfold DoCf.run_cf. rewrite (pool_map_complete _ _ _ Hperm). reflexivity.
  - unfold DoCf.cpu_data_values.
    assert (Hflat : forall l : list Z, concat (map (fun p => [p]) l) = l).
    { induction l as [|p l IH]; simpl; [reflexivity | by rewrite IH]. }
    rewrite Hflat, !DoCf.dict_order_perm. reflexivity.
Qed.

End DoCfProperties.

(** the maximum angle for the default command line, with the stand-in
    linear distance: 200 / (3000 * (3600 / 1215.67 - 1)) *)
Example angmax_of_default_args :
  cf_angmax stub_globals
  = F64.div (F64.of_Z 200)
      (F64.mul (F64.of_Z 3000)
         (F64.sub (F64.div (F64.of_Z 3600) (S754_finite false 5346573202153800 (-42)))
                  F64.one)).
Proof. reflexivity. Qed.

(* ===================================================================== *)
(** ** Data: the two filters *)
(* ===================================================================== *)

Section FilterProperties.
Context `{Picca}.

Lemma insert_desc_last (a : nat) (l : list nat) :
  Forall (fun j => (a < j)%nat) l -> Data.insert_desc a l = l ++ [a].
Proof.
  induction 1 as [|j l Hj _ IH]; simpl; [reflexivity|].
  destruct (Nat.leb_spec j a); [lia|]. by rewrite IH.
Qed.

Lemma sorted_reverse_ascending (l : list nat) :
  StronglySorted lt l -> Data.sorted_reverse l = rev l.
Proof.
  induction 1 as [|a l _ IH Ha]; simpl; [reflexivity|].
  unfold Data.sorted_reverse in *. simpl. rewrite IH.
  apply insert_desc_last. by apply Forall_rev.
Qed.

Lemma positions_bounds {A} (bad : A -> bool) (l : list A) :
  forall index, Forall (fun j => (index <= j)%nat) (positions bad index l).
Proof.
  induction l as [|x l IH]; intros index; simpl; [constructor|].
  assert (Htail : Forall (fun j => (index <= j)%nat) (positions bad (S index) l)).
  { eapply Forall_impl; [apply IH|]. simpl. intros; lia. }
  destruct (bad x); [constructor; [lia | exact Htail] | exact Htail].
Qed.

Lemma positions_sorted {A} (bad : A -> bool) (l : list A) :
  forall index, StronglySorted lt (positions bad index l).
Proof.
  induction l as [|x l IH]; intros index; simpl; [constructor|].
  destruct (bad x); [|apply IH].
  constructor; [apply IH|].
  eapply Forall_impl; [apply (positions_bounds bad l (S index))|]. simpl. intros; lia.
Qed.

Lemma del_all_app {A} (i1 i2 : list nat) (l : list A) :
  Data.del_all (i1 ++ i2) l = do l' <- Data.del_all i1 l; Data.del_all i2 l'.
Proof.
  revert l. induction i1 as [|i i1 IH]; intros l; simpl; [reflexivity|].
  destruct (Data.del_at i l); simpl; [apply IH | reflexivity].
Qed.

Lemma del_at_middle {A} (pre : list A) (x : A) (post : list A) :
  Data.del_at (length pre) (pre ++ x :: post) = Ok (pre ++ post).
Proof.
  unfold Data.del_at. rewrite length_app. simpl.
  destruct (Nat.ltb_spec (length pre) (length pre + S (length post))); [|lia].
  by rewrite delete_middle.
Qed.

(** deleting the positions of the bad elements, last first, keeps the
    others in their order *)
Lemma del_all_positions {A} (bad : A -> bool) (l : list A) :
  forall pre,
    Data.del_all (rev (positions bad (length pre) l)) (pre ++ l)
    = Ok (pre ++ List.filter (fun x => negb (bad x)) l).
Proof.
  induction l as [|x l IH]; intros pre; simpl; [reflexivity|].
  specialize (IH (pre ++ [x])). rewrite length_app in IH. simpl in IH.
  replace (length pre + 1)%nat with (S (length pre)) in IH by lia.
  rewrite <- app_assoc in IH. simpl in IH.
  destruct (bad x); simpl.
  - rewrite del_all_app, IH. simpl.
    rewrite <- app_assoc. simpl. by rewrite del_at_middle.
  - rewrite IH. by rewrite <- app_assoc.
Qed.

Lemma del_sorted_positions {A} (bad : A -> bool) (l : list A) :
  Data.del_all (Data.sorted_reverse (positions bad 0 l)) l
  = Ok (List.filter (fun x => negb (bad x)) l).
Proof.
  rewrite sorted_reverse_ascending by apply positions_sorted.
  apply (del_all_positions bad l []).
Qed.

Lemma bad_cont_indexs_positions (fs : list forest) :
  forall index acc,
    Data.bad_cont_indexs index fs acc = acc ++ positions spec_bad_continuum index fs.
Proof.
  induction fs as [|f fs IH]; intros index acc; simpl; [by rewrite app_nil_r|].
  unfold spec_bad_continuum at 1.
  destruct (f_bad_continuum_reason f); rewrite IH; [|reflexivity].
  by rewrite <- app_assoc.
Qed.

Lemma fails_quality_spec (min_num_pix : Z) (f : forest) :
  length (f_flux f) = length (f_ivar f) ->
  Data.fails_quality min_num_pix f = Ok (spec_fails_quality min_num_pix f).
Proof.
  intros Hlen. unfold Data.fails_quality, spec_fails_quality, Np.mul, Np.binop.
  destruct (Z.of_nat (length (f_flux f)) <? min_num_pix); [reflexivity|].
  rewrite Hlen, Nat.eqb_refl. simpl.
  by destruct (F64.is_nan _).
Qed.

Lemma quality_indexs_positions (min_num_pix : Z) (fs : list forest) :
  Forall (fun f => length (f_flux f) = length (f_ivar f)) fs ->
  forall index acc,
    Data.quality_indexs min_num_pix index fs acc
    = Ok (acc ++ positions (spec_fails_quality min_num_pix) index fs).
Proof.
  induction 1 as [|f fs Hf _ IH]; intros index acc; simpl; [by rewrite app_nil_r|].
  rewrite (fails_quality_spec _ _ Hf). simpl.
  destruct (spec_fails_quality min_num_pix f); rewrite IH; [|reflexivity].
  by rewrite <- app_assoc.
Qed.

(** C5: [filter_forests] removes exactly the forests with fewer than
    [min_num_pix] pixels or a NaN sum of flux times ivar, and
    [filter_bad_cont_forests] exactly those whose [bad_continuum_reason] is
    set; the forests that remain keep their order.  The flux and ivar arrays
    of a forest share their length. *)
Theorem filters_remove_exactly_the_bad_forests (d : Data.data) :
  Forall (fun f => length (f_flux f) = length (f_ivar f)) (Data.forests d) ->
  Data.filter_forests d
  = Ok (spec_without (spec_fails_quality (Data.min_num_pix d)) d) /\
  Data.filter_bad_cont_forests d = Ok (spec_without spec_bad_continuum d).
Proof.
  intros Hshape. split.
  - unfold Data.filter_forests.
    rewrite (quality_indexs_positions _ _ Hshape). simpl.
    by rewrite del_sorted_positions.
  - unfold Data.filter_bad_cont_forests.
    rewrite bad_cont_indexs_positions. simpl.
    by rewrite del_sorted_positions.
Qed.

End FilterProperties.

(* ===================================================================== *)
(** ** Data: find_nside *)
(* ===================================================================== *)

Section NsideProperties.
Context `{Picca}.

Lemma nside_loop_step (fs : list forest) (nside : Z) (hp : list Z) (mean : float) :
  Data.nside_loop fs nside hp mean =
  if F64.ltb mean Data.target_mean_num_obj && bool_decide (nside >= Data.nside_min)
  then match Data.mean_num_obj (Data.healpixs_at (nside / 2) fs) with
       | Ok mean' =>
           Data.nside_loop fs (nside / 2) (Data.healpixs_at (nside / 2) fs) mean'
       | Raise e => Raise e
       end
  else Ok (nside, hp, mean).
Proof.
  simp nside_loop.
  destruct (F64.ltb mean Data.target_mean_num_obj); simpl.
  - destruct (decide (nside >= Data.nside_min)) as [Hge|Hlt]; simpl.
    + rewrite bool_decide_true by done.
      destruct (Data.mean_num_obj (Data.healpixs_at (nside / 2) fs)); reflexivity.
    + rewrite bool_decide_false by done. reflexivity.
  - destruct (decide (nside >= Data.nside_min)); reflexivity.
Qed.

Lemma n_unique_pos (l : list Z) : l <> [] -> Np.n_unique l <> 0%nat.
Proof.
  destruct l as [|x l]; [done|]. intros _ Hz. unfold Np.n_unique in Hz.
  apply length_zero_iff_nil in Hz.
  assert (Hx : x ∈ remove_dups (x :: l)) by (apply elem_of_remove_dups; left).
  rewrite Hz in Hx. by apply elem_of_nil in Hx.
Qed.

Lemma mean_num_obj_spec (nside : Z) (fs : list forest) :
  fs <> [] ->
  Data.mean_num_obj (Data.healpixs_at nside fs) = Ok (spec_mean_num_obj nside fs).
Proof.
  intros Hne. unfold Data.mean_num_obj, Data.truediv, Data.healpixs_at.
  assert (Hu : Np.n_unique (map (spec_healpix nside) fs) <> 0%nat).
  { apply n_unique_pos. by destruct fs. }
  change (map _ fs) with (map (spec_healpix nside) fs).
  destruct (Z.eqb_spec (Z.of_nat (Np.n_unique (map (spec_healpix nside) fs))) 0); [lia|].
  unfold spec_mean_num_obj. by rewrite length_map.
Qed.

(** the loop entered at [2^(k+2)] stops at some [2^(k'+2)] with [k' <= k]:
    at 4, or at the first resolution that is not sparse *)
Lemma nside_loop_spec (fs : list forest) :
  fs <> [] ->
  forall k : nat,
    exists k' : nat,
      (k' <= k)%nat /\
      (k' = 0%nat \/ spec_sparse (2 ^ (Z.of_nat k' + 2)) fs = false) /\
      (forall i : nat, (k' < i <= k)%nat ->
                       spec_sparse (2 ^ (Z.of_nat i + 2)) fs = true) /\
      Data.nside_loop fs (2 ^ (Z.of_nat k + 2))
        (Data.healpixs_at (2 ^ (Z.of_nat k + 2)) fs)
        (spec_mean_num_obj (2 ^ (Z.of_nat k + 2)) fs)
      = Ok (2 ^ (Z.of_nat k' + 2), Data.healpixs_at (2 ^ (Z.of_nat k' + 2)) fs,
            spec_mean_num_obj (2 ^ (Z.of_nat k' + 2)) fs).
Proof.
  intros Hne. induction k as [|k IH].
  - exists 0%nat. rewrite nside_loop_step.
    rewrite (bool_decide_false (2 ^ (Z.of_nat 0 + 2) >= Data.nside_min))
      by (unfold Data.nside_min; simpl; lia).
    rewrite andb_false_r. repeat split; [lia | by left | intros; lia].
  - rewrite nside_loop_step.
    assert (Hhalf : 2 ^ (Z.of_nat (S k) + 2) / 2 = 2 ^ (Z.of_nat k + 2)).
    { replace (Z.of_nat (S k) + 2) with (Z.succ (Z.of_nat k + 2)) by lia.
      rewrite Z.pow_succ_r by lia. rewrite Z.mul_comm. apply Z.div_mul. lia. }
    assert (Hge : 2 ^ (Z.of_nat (S k) + 2) >= Data.nside_min).
    { unfold Data.nside_min. change 8 with (2 ^ 3).
      apply Z.le_ge, Z.pow_le_mono_r; lia. }
    rewrite (bool_decide_true _ Hge), andb_true_r.
    change (F64.ltb (spec_mean_num_obj (2 ^ (Z.of_nat (S k) + 2)) fs)
                    Data.target_mean_num_obj)
      with (spec_sparse (2 ^ (Z.of_nat (S k) + 2)) fs).
    destruct (spec_sparse (2 ^ (Z.of_nat (S k) + 2)) fs) eqn:Hsparse.
    + rewrite Hhalf, (mean_num_obj_spec _ _ Hne).
      destruct IH as (k' & Hle & Hstop & Habove & Hloop).
      exists k'. repeat split; [lia | exact Hstop | | exact Hloop].
      intros i Hi. destruct (decide (i = S k)) as [->|Hne']; [exact Hsparse|].
      apply Habove. lia.
    + exists (S k). repeat split; [lia | by right | intros; lia].
Qed.

Lemma assign_healpix_spec (nside : Z) (fs : list forest) :
  map f_healpix (Data.assign_healpix fs (Data.healpixs_at nside fs))
  = map (fun f => Some (spec_healpix nside f)) fs /\
  map f_los_id (Data.assign_healpix fs (Data.healpixs_at nside fs))
  = map f_los_id fs.
Proof.
  unfold Data.assign_healpix, Data.healpixs_at.
  induction fs as [|f fs [IH1 IH2]]; simpl; [done|].
  split; f_equal; assumption.
Qed.

(** C9: on a non-empty list of forests [find_nside] returns; the nside it
    stops at is [2^(k+2)] for some [k <= 6], that is one of 4, 8, ..., 256,
    reached from 256 through sparse resolutions only and either equal to 4 or
    not sparse itself; every forest, in order, gets its healpix id at that
    one nside; and a single forest drives the loop down to 4, below the
    stated minimum of 8. *)
Theorem find_nside_stops_on_a_power_of_two (fs : list forest) :
  fs <> [] ->
  (exists (k : nat) (fs' : list forest),
     let nside := 2 ^ (Z.of_nat k + 2) in
     Data.find_nside fs = Ok (nside, fs') /\
     nside ∈ [4; 8; 16; 32; 64; 128; 256] /\
     (nside = 4 \/ spec_sparse nside fs = false) /\
     (forall i : nat, (k < i <= 6)%nat ->
                      spec_sparse (2 ^ (Z.of_nat i + 2)) fs = true) /\
     map f_healpix fs' = map (fun f => Some (spec_healpix nside f)) fs /\
     map f_los_id fs' = map f_los_id fs) /\
  (forall f, exists fs', Data.find_nside [f] = Ok (4, fs')).
Proof.
  assert (Hgen : forall gs : list forest, gs <> [] ->
    exists (k : nat),
      Data.find_nside gs
      = Ok (2 ^ (Z.of_nat k + 2),
            Data.assign_healpix gs (Data.healpixs_at (2 ^ (Z.of_nat k + 2)) gs)) /\
      (k <= 6)%nat /\
      (k = 0%nat \/ spec_sparse (2 ^ (Z.of_nat k + 2)) gs = false) /\
      (forall i : nat, (k < i <= 6)%nat ->
                       spec_sparse (2 ^ (Z.of_nat i + 2)) gs = true)).
  { intros gs Hne.
    destruct (nside_loop_spec gs Hne 6) as (k & Hle & Hstop & Habove & Hloop).
    exists k. repeat split; try assumption.
    unfold Data.find_nside.
    change 256 with (2 ^ (Z.of_nat 6 + 2)).
    rewrite (mean_num_obj_spec _ _ Hne). simpl rbind at 1.
    rewrite Hloop. reflexivity. }
  intros Hne. split.
  - destruct (Hgen fs Hne) as (k & Hfind & Hle & Hstop & Habove).
    exists k, (Data.assign_healpix fs (Data.healpixs_at (2 ^ (Z.of_nat k + 2)) fs)).
    cbv zeta. split; [exact Hfind|].
    destruct (assign_healpix_spec (2 ^ (Z.of_nat k + 2)) fs) as [Hhp Hid].
    repeat split; try assumption.
    + do 7 (destruct k as [|k]; [simpl; rewrite !elem_of_cons; auto 10|]). lia.
    + destruct Hstop as [->|Hs]; [by left | by right].
  - intros f.
    destruct (Hgen [f]) as (k & Hfind & Hle & Hstop & _); [done|].
    destruct Hstop as [->|Hs].
    + eexists. exact Hfind.
    + exfalso. clear -Hs. unfold spec_sparse, spec_mean_num_obj in Hs.
      simpl in Hs. discriminate.
Qed.

End NsideProperties.

(* ===================================================================== *)
(** ** Configuration of Data and DesiData *)
(* ===================================================================== *)

Section ConfigProperties.
Context `{Picca}.

Lemma data_init_ok (c : config) (igm igm' : option float) (d : Data.data) :
  Data.init c igm = (igm', Ok d) ->
  Data.analysis_type d = default Data.default_analysis_type (c !! "analysis type") /\
  Data.analysis_type d ∈ Data.accepted_analysis_type /\
  Data.forests d = [] /\
  (c !! "minimum number pixels in forest" = None ->
   Data.min_num_pix d = Data.default_min_num_pix) /\
  igm' = (if bool_decide (Data.analysis_type d = "BAO 3D") then
            match c !! "absorber IGM" with
            | None => Data.default_lambda_abs_igm
            | Some name => ABSORBER_IGM !! name
            end
          else igm).
Proof.
  unfold Data.init.
  set (t := match c !! "analysis type" with
            | Some v => v
            | None => Data.default_analysis_type
            end).
  assert (Ht : t = default Data.default_analysis_type (c !! "analysis type")).
  { subst t. by destruct (c !! "analysis type"). }
  destruct (bool_decide (t ∈ Data.accepted_analysis_type)) eqn:Hacc; simpl;
    [|discriminate].
  apply bool_decide_eq_true in Hacc.
  unfold Data.getint.
  destruct (c !! "minimum number pixels in forest") as [v|] eqn:Hmin; simpl.
  - destruct (py_int v); simpl; [|discriminate].
    intros [= <- <-]. simpl. rewrite <- Ht. repeat split; try done.
  - intros [= <- <-]. simpl. rewrite <- Ht. repeat split; try done.
Qed.

Lemma get_or_default (c : config) (name : string) (v : pyval) :
  c !! name = None -> DesiData.get_or c name v = v.
Proof. unfold DesiData.get_or. by intros ->. Qed.

Context `{DesiSurvey}.

Lemma desi_init_raises_in_data_init (c : config) (igm igm' : option float) (e : exn) :
  Data.init c igm = (igm', Raise e) ->
  DesiDataInit.init c igm = (igm', [], Raise e).
Proof. intros Hinit. unfold DesiDataInit.init. by rewrite Hinit. Qed.

Lemma desi_init_raises_in_parse_config (c : config) (igm igm' : option float)
  (d : Data.data) (e : exn) :
  Data.init c igm = (igm', Ok d) -> DesiData.parse_config c = Raise e ->
  DesiDataInit.init c igm = (igm', [], Raise e).
Proof. intros Hinit Hparse. unfold DesiDataInit.init. by rewrite Hinit, Hparse. Qed.


End ConfigProperties.

(* ===================================================================== *)
(** ** DesiData: what is read from one spectra file *)
(* ===================================================================== *)

Section ReadProperties.
Context `{Picca}.

Lemma at2_zip2 {A B C} (op : A -> B -> C) (a : list (list A)) (b : list (list B))
  (i j : nat) (x : A) (y : B) :
  at2 a i j = Some x -> at2 b i j = Some y ->
  at2 (Np.zip2 op a b) i j = Some (op x y).
Proof.
  unfold at2, Np.zip2. intros Ha Hb. rewrite lookup_zip_with.
  destruct (a !! i) as [ra|]; [|discriminate].
  destruct (b !! i) as [rb|]; [|discriminate]. simpl in *.
  rewrite lookup_zip_with, Ha, Hb. reflexivity.
Qed.

Lemma set_where_no_nan_l (a b : list float) :
  Forall (fun x => F64.is_nan x = false)
    (Np.set_where (zip_with (fun x y => F64.is_nan x || F64.is_nan y) a b) F64.zero a).
Proof.
  unfold Np.set_where. revert b.
  induction a as [|x a IH]; intros [|y b]; simpl; try constructor; [|apply IH].
  destruct (F64.is_nan x) eqn:Hx; simpl; [reflexivity|].
  destruct (F64.is_nan y); [reflexivity | exact Hx].
Qed.

Lemma set_where_no_nan_r (a b : list float) :
  Forall (fun x => F64.is_nan x = false)
    (Np.set_where (zip_with (fun x y => F64.is_nan x || F64.is_nan y) a b) F64.zero b).
Proof.
  unfold Np.set_where. revert b.
  induction a as [|x a IH]; intros [|y b]; simpl; try constructor; [|apply IH].
  destruct (F64.is_nan x) eqn:Hx; simpl; [reflexivity|].
  destruct (F64.is_nan y) eqn:Hy; [reflexivity | exact Hy].
Qed.

Lemma zero_where_no_nan (flux ivar : list (list float)) :
  no_nan (DesiData.zero_where (DesiData.nan_either flux ivar) flux) /\
  no_nan (DesiData.zero_where (DesiData.nan_either flux ivar) ivar).
Proof.
  unfold no_nan, DesiData.zero_where, DesiData.nan_either, Np.zip2. revert ivar.
  induction flux as [|r flux IH]; intros [|q ivar]; simpl;
    try (split; constructor).
  - apply set_where_no_nan_l.
  - apply IH.
  - apply set_where_no_nan_r.
  - apply IH.
Qed.

(** what [read_band] puts under the keys of [spec] *)
Lemma read_band_ok (hdul : gmap string hdu) (color : string) (spec : spec_dict) :
  DesiData.read_band hdul color = Ok spec ->
  exists wavelength flux ivar0 mask,
    hdul !! (color +:+ "_WAVELENGTH") = Some wavelength /\
    hdul !! (color +:+ "_FLUX") = Some (Image flux) /\
    hdul !! (color +:+ "_IVAR") = Some (Image ivar0) /\
    hdul !! (color +:+ "_MASK") = Some (Mask mask) /\
    let masked := Np.zip2 (fun x m => F64.mul x (F64.of_bool (m =? 0))) ivar0 mask in
    let w := DesiData.nan_either flux masked in
    spec = <["IVAR" := Image (DesiData.zero_where w masked)]>
             (<["FLUX" := Image (DesiData.zero_where w flux)]>
                (<["WAVELENGTHL" := wavelength]> ∅)).
Proof.
  unfold DesiData.read_band, DesiData.read_hdu.
  destruct (hdul !! (color +:+ "_WAVELENGTH")) as [wl|]; [|discriminate].
  destruct (hdul !! (color +:+ "_FLUX")) as [fl|]; [|discriminate].
  destruct (hdul !! (color +:+ "_IVAR")) as [iv|]; [|discriminate].
  destruct (hdul !! (color +:+ "_MASK")) as [mk|]; [|discriminate].
  unfold rbind at 1 2 3 4. unfold DesiData.mask_ivar.
  destruct iv as [|iv|]; try discriminate.
  destruct mk as [| |mk]; try discriminate.
  destruct (DesiData.same_shape iv mk); [|discriminate].
  unfold rbind.
  destruct fl as [|fl|]; try discriminate.
  destruct (DesiData.same_shape fl _); [|discriminate].
  intros [= <-]. exists wl, fl, iv, mk. repeat split.
Qed.

Lemma dict_set_elem (color : string) (spec : spec_dict)
  (sd : list (string * spec_dict)) (cs : string * spec_dict) :
  cs ∈ DesiData.dict_set color spec sd -> cs = (color, spec) \/ cs ∈ sd.
Proof.
  induction sd as [|[c s] sd IH]; simpl.
  - intros Hin. apply list_elem_of_singleton in Hin. by left.
  - destruct (bool_decide_reflect (c = color)) as [->|Hne].
    + rewrite !elem_of_cons. intros [->|Hin]; [by left | right; by right].
    + rewrite !elem_of_cons. intros [->|Hin]; [right; by left|].
      destruct (IH Hin) as [->|Hin']; [by left | right; by right].
Qed.

(** every entry of [spectrographs_data] is the result of [read_band] for
    its colour *)
Lemma read_bands_elem (hdul : gmap string hdu) (colors : list string) :
  forall sd0 sd,
    DesiData.read_bands hdul colors sd0 = Ok sd ->
    Forall (fun cs => DesiData.read_band hdul cs.1 = Ok cs.2) sd0 ->
    Forall (fun cs => DesiData.read_band hdul cs.1 = Ok cs.2) sd.
Proof.
  induction colors as [|color colors IH]; intros sd0 sd; simpl.
  - by intros [= <-].
  - destruct (DesiData.read_band hdul color) as [spec|e] eqn:Hband.
    + intros Hrest Hsd0. apply (IH _ _ Hrest).
      apply Forall_forall. intros cs Hin.
      destruct (dict_set_elem _ _ _ _ Hin) as [->|Hin']; [exact Hband|].
      rewrite Forall_forall in Hsd0. by apply Hsd0.
    + destruct e; try discriminate. apply IH.
Qed.

Lemma spectrographs_data_elem (hdul : gmap string hdu)
  (sd : list (string * spec_dict)) :
  DesiData.spectrographs_data hdul = Ok sd ->
  Forall (fun cs => DesiData.read_band hdul cs.1 = Ok cs.2) sd.
Proof.
  unfold DesiData.spectrographs_data. intros Hsd.
  apply (read_bands_elem _ _ _ _ Hsd). constructor.
Qed.

(** [spec['IV']] raises KeyError on every [spec] the reader builds *)
Lemma forest_args_of_read_band (hdul : gmap string hdu) (color : string)
  (spec : spec_dict) (w_t : list nat) (e : entry) :
  DesiData.read_band hdul color = Ok spec ->
  DesiData.forest_args_of spec w_t e = Raise (KeyError "IV").
Proof.
  intros Hband. destruct (read_band_ok _ _ _ Hband) as (wl & fl & iv & mk & _ & _ & _ & _ & ->).
  unfold DesiData.forest_args_of, DesiData.getitem.
  rewrite !lookup_insert_ne by done. rewrite lookup_empty. reflexivity.
Qed.

Lemma build_specs_calls (hdul : gmap string hdu) (sd : list (string * spec_dict))
  (w_t : list nat) (e : entry) (calls : list forest_args) :
  Forall (fun cs => DesiData.read_band hdul cs.1 = Ok cs.2) sd ->
  (DesiData.build_specs (map snd sd) w_t e calls).1 = calls.
Proof.
  destruct 1 as [|[c s] sd Hcs _]; simpl; [reflexivity|].
  simpl in Hcs. by rewrite (forest_args_of_read_band _ _ _ _ _ Hcs).
Qed.

Lemma build_entries_calls (hdul : gmap string hdu) (sd : list (string * spec_dict))
  (targetid_spec : list Z) (entries : list entry) :
  Forall (fun cs => DesiData.read_band hdul cs.1 = Ok cs.2) sd ->
  forall calls, (DesiData.build_entries sd targetid_spec entries calls).1 = calls.
Proof.
  intros Hsd. induction entries as [|e entries IH]; intros calls; simpl; [reflexivity|].
  destruct (DesiData.where_eq 0 targetid_spec (e_targetid e)) as [|i w_t]; [apply IH|].
  pose proof (build_specs_calls hdul sd (i :: w_t) e calls Hsd) as Hcalls.
  destruct (DesiData.build_specs (map snd sd) (i :: w_t) e calls) as [calls' [u|ex]];
    simpl in *; subst calls'; [apply IH | reflexivity].
Qed.

(** the reader never reaches the constructor of a forest: the keys 'IV' and
    'FL' it indexes [spec] with are not the keys 'IVAR' and 'FLUX' it
    stored *)
Lemma read_file_constructs_nothing (hdul : gmap string hdu) (targetid_spec : list Z)
  (entries : list entry) :
  (DesiData.read_file hdul targetid_spec entries).1 = [].
Proof.
  unfold DesiData.read_file.
  destruct (DesiData.spectrographs_data hdul) as [sd|ex] eqn:Hsd; [|reflexivity].
  apply (build_entries_calls hdul). by apply spectrographs_data_elem.
Qed.

(** C10: for every band kept by [read_from_desi] the arrays stored under
    'IVAR' and 'FLUX' are, pixel by pixel, the file's inverse variance times
    the indicator of [mask == 0] and the file's flux, both replaced by 0
    where either is NaN; neither array contains a NaN; and no call of the
    forest constructor made while reading the file receives a NaN flux or
    inverse variance. *)
Theorem desi_spectra_are_sanitized (hdul : gmap string hdu)
  (sd : list (string * spec_dict)) :
  DesiData.spectrographs_data hdul = Ok sd ->
  (forall color spec, (color, spec) ∈ sd ->
     exists flux ivar0 mask stored_flux stored_ivar,
       hdul !! (color +:+ "_FLUX") = Some (Image flux) /\
       hdul !! (color +:+ "_IVAR") = Some (Image ivar0) /\
       hdul !! (color +:+ "_MASK") = Some (Mask mask) /\
       spec !! "FLUX" = Some (Image stored_flux) /\
       spec !! "IVAR" = Some (Image stored_ivar) /\
       (forall i j x v m,
          at2 flux i j = Some x -> at2 ivar0 i j = Some v -> at2 mask i j = Some m ->
          at2 stored_ivar i j = Some (spec_stored_ivar x v m) /\
          at2 stored_flux i j = Some (spec_stored_flux x v m)) /\
       no_nan stored_flux /\ no_nan stored_ivar) /\
  (forall targetid_spec entries,
     Forall (fun fa => no_nan (fa_flux fa) /\ no_nan (fa_ivar fa))
       (DesiData.read_file hdul targetid_spec entries).1).
Proof.
  intros Hsd. split.
  - intros color spec Hin.
    pose proof (spectrographs_data_elem _ _ Hsd) as Hall.
    rewrite Forall_forall in Hall. specialize (Hall _ Hin). simpl in Hall.
    destruct (read_band_ok _ _ _ Hall) as (wl & fl & iv & mk & _ & Hfl & Hiv & Hmk & Hspec).
    cbv zeta in Hspec.
    pose (ind := fun (y : float) (k : Z) => F64.mul y (F64.of_bool (k =? 0))).
    pose (masked := Np.zip2 ind iv mk).
    pose (w := DesiData.nan_either fl masked).
    exists fl, iv, mk, (DesiData.zero_where w fl), (DesiData.zero_where w masked).
    split; [exact Hfl|]. split; [exact Hiv|]. split; [exact Hmk|].
    split; [rewrite Hspec, lookup_insert_ne by done; by rewrite lookup_insert_eq|].
    split; [rewrite Hspec; by rewrite lookup_insert_eq|].
    split; [|apply zero_where_no_nan].
    intros i j x v m Hx Hv Hm.
    assert (Hmasked : at2 masked i j = Some (ind v m)).
    { by apply at2_zip2. }
    assert (Hw : at2 w i j = Some (F64.is_nan x || F64.is_nan (ind v m))).
    { by apply (at2_zip2 (fun a b => F64.is_nan a || F64.is_nan b)). }
    split.
    + exact (at2_zip2 (fun (b : bool) y => if b then F64.zero else y)
               w masked i j _ _ Hw Hmasked).
    + exact (at2_zip2 (fun (b : bool) y => if b then F64.zero else y)
               w fl i j _ _ Hw Hx).
  - intros targetid_spec entries. rewrite read_file_constructs_nothing. constructor.
Qed.

End ReadProperties.

(** the claim of C8 on a four-CPU machine: the pool gets 2 workers, not 4 *)
Lemma auto_pool_size_not_cpu_count :
  DoCf.make_pool 4 stub_args = Ok 2 /\
  DoCf.make_pool 4 stub_args <> Ok 4.
Proof. split; [reflexivity | discriminate]. Qed.

Lemma auto_pool_size_witness :
  a_nproc stub_args = None /\
  (DoCf.resolve_nproc 8 stub_args = 8 / 2 /\
   DoCf.make_pool 8 stub_args =
     if 8 <? 2 then Raise ValueError else Ok (8 / 2)).
Proof.
  split; [reflexivity|].
  apply (auto_pool_size_is_half_cpu_count 8); reflexivity.
Defined.

Lemma preprocess_witness :
  exists data,
    DoCf.preprocess (H := stub_pylya) stub_args stub_globals [stub_delta]
    = Ok (data, [spec_preprocessed (H := stub_pylya) stub_args stub_delta]).
Proof.
  destruct (preprocess_mutates_every_forest (H := stub_pylya) stub_args [stub_delta])
    as (_ & _ & _ & data & Hdata).
  - repeat constructor.
  - exists data. exact Hdata.
Defined.

(** the claim of C1 on two cells with one bin, weights 1 and 1, correlation
    values 1 and 3: the summed weight is 2 and the normalized correlation is
    2, while the table written holds the two weights 1, 1 and the two values
    1, 3 *)
Lemma second_table_is_per_cell :
  let cfs := [one_bin_cell (F64.of_Z 1) (F64.of_Z 1);
              one_bin_cell (F64.of_Z 1) (F64.of_Z 3)] in
  spec_second_table 1 cfs = ([F64.of_Z 2], [F64.of_Z 2]) /\
  exists out,
    DoCf.reduce stub_globals cfs = Ok out /\
    DoCf.o_we out = [[F64.of_Z 1]; [F64.of_Z 1]] /\
    DoCf.o_da out = [[F64.of_Z 1]; [F64.of_Z 3]] /\
    DoCf.o_we out <> [(spec_second_table 1 cfs).1] /\
    DoCf.o_da out <> [(spec_second_table 1 cfs).2].
Proof.
  split; [vm_compute; reflexivity|].
  eexists. split; [reflexivity|].
  repeat split; try (vm_compute; reflexivity); vm_compute; discriminate.
Qed.

Lemma reduce_witness :
  exists out,
    DoCf.reduce stub_globals
      [one_bin_cell (F64.of_Z 1) (F64.of_Z 1); one_bin_cell (F64.of_Z 1) (F64.of_Z 3)]
    = Ok out /\
    DoCf.o_rp out !! 0%nat = Some (F64.of_Z 2).
Proof.
  destruct (reduce_normalizes_means_and_stores_cells stub_globals 1
              [one_bin_cell (F64.of_Z 1) (F64.of_Z 1);
               one_bin_cell (F64.of_Z 1) (F64.of_Z 3)])
    as (out & Hout & Hbins & _).
  - discriminate.
  - repeat constructor.
  - exists out. split; [exact Hout|].
    destruct (Hbins 0%nat) as (Hrp & _); [lia|]. rewrite Hrp. vm_compute. reflexivity.
Defined.

(** outside the data model the hypothesis on the weights is needed: for two
    cells with one bin and the weights 1 and -1 the summed weight is zero
    and the mean parallel separation is minus infinity *)
Lemma zero_summed_weight_without_nan :
  let cfs := [one_bin_cell (F64.of_Z 1) (F64.of_Z 1);
              one_bin_cell (F64.of_Z (-1)) (F64.of_Z 2)] in
  F64.is_zero (spec_summed_weight cfs 0) = true /\
  exists out,
    DoCf.reduce stub_globals cfs = Ok out /\
    DoCf.o_rp out = [S754_infinity true] /\
    F64.is_nan (bin 0 (DoCf.o_rp out)) = false.
Proof.
  split; [vm_compute; reflexivity|].
  eexists. split; [reflexivity|]. split; vm_compute; reflexivity.
Qed.

Lemma zero_weight_bin_is_nan_witness :
  exists out,
    DoCf.reduce stub_globals
      [one_bin_cell F64.zero (F64.of_Z 1); one_bin_cell F64.zero (F64.of_Z 3)]
    = Ok out /\
    DoCf.o_rp out !! 0%nat = Some F64.nan.
Proof.
  destruct (zero_weight_bin_is_nan stub_globals 1
              [one_bin_cell F64.zero (F64.of_Z 1); one_bin_cell F64.zero (F64.of_Z 3)]
              0%nat)
    as (out & Hout & Hrp & _).
  - discriminate.
  - repeat constructor.
  - lia.
  - repeat constructor.
  - reflexivity.
  - exists out. split; [exact Hout | exact Hrp].
Defined.

(** the claim of C2 on three cells inserted in the order 8, 1, 2: the tasks
    are reduced in that order, and the mean parallel separation differs from
    the one of the reduction in ascending cell id *)
Lemma reduction_order_is_not_ascending :
  let data := [(8, [stub_delta]); (1, [stub_delta]); (2, [stub_delta])] in
  let corr := DoCf.corr_func (H := stub_pylya) stub_globals data in
  @DoCf.cpu_data_values DoCf.insertion_order data = [[8]; [1]; [2]] /\
  exists out_run out_ascending,
    @DoCf.run_cf stub_pylya DoCf.insertion_order stub_globals data [0; 1; 2]%nat
    = Some (Ok out_run) /\
    DoCf.reduce stub_globals (map corr [[1]; [2]; [8]]) = Ok out_ascending /\
    DoCf.o_rp out_run <> DoCf.o_rp out_ascending.
Proof.
  split; [reflexivity|].
  eexists. eexists. split; [reflexivity|]. split; [reflexivity|].
  vm_compute. discriminate.
Qed.

Lemma schedule_witness :
  @DoCf.run_cf stub_pylya DoCf.insertion_order stub_globals
    [(8, [stub_delta]); (1, [stub_delta]); (2, [stub_delta])] [2; 0; 1]%nat
  = @DoCf.run_cf stub_pylya DoCf.insertion_order stub_globals
      [(8, [stub_delta]); (1, [stub_delta]); (2, [stub_delta])] [0; 1; 2]%nat.
Proof.
  destruct (reduction_independent_of_schedule (H := stub_pylya) (H0 := DoCf.insertion_order)
              stub_globals [(8, [stub_delta]); (1, [stub_delta]); (2, [stub_delta])]
              [2; 0; 1]%nat) as [-> _].
  - exact (Permutation_cons_app [0; 1]%nat [] 2%nat (Permutation_refl [0; 1]%nat)).
  - reflexivity.
Defined.



Lemma filters_witness :
  exists d1 d2,
    Data.filter_forests (H := stub_picca) stub_data = Ok d1 /\
    map f_los_id (Data.forests d1) = [3; 4] /\
    Data.filter_bad_cont_forests stub_data = Ok d2 /\
    map f_los_id (Data.forests d2) = [1; 2; 3].
Proof.
  destruct (filters_remove_exactly_the_bad_forests (H := stub_picca) stub_data)
    as [Hq Hc].
  - repeat constructor.
  - eexists. eexists. split; [exact Hq|]. split; [reflexivity|].
    split; [exact Hc | reflexivity].
Defined.

Lemma find_nside_witness :
  exists fs',
    Data.find_nside (H := stub_picca) [stub_forest 1 [F64.one] [F64.one] None]
    = Ok (4, fs').
Proof.
  destruct (find_nside_stops_on_a_power_of_two (H := stub_picca)
              [stub_forest 1 [F64.one] [F64.one] None]) as [_ Hone].
  - discriminate.
  - exact (Hone (stub_forest 1 [F64.one] [F64.one] None)).
Defined.

Lemma stub_file_bands : DesiData.spectrographs_data stub_hdul = Ok [("B", stub_spec)].
Proof. vm_compute. reflexivity. Qed.

Lemma sanitize_witness :
  DesiData.spectrographs_data stub_hdul = Ok [("B", stub_spec)] /\
  exists stored_flux stored_ivar,
    stub_spec !! "FLUX" = Some (Image stored_flux) /\
    stub_spec !! "IVAR" = Some (Image stored_ivar) /\
    no_nan stored_flux /\ no_nan stored_ivar.
Proof.
  split; [exact stub_file_bands|].
  destruct (desi_spectra_are_sanitized stub_hdul [("B", stub_spec)] stub_file_bands)
    as [Hbands _].
  destruct (Hbands "B" stub_spec) as (fl & iv & mk & sf & si & _ & _ & _ & Hf & Hi & _ & Hnf & Hni).
  - apply list_elem_of_here.
  - exists sf, si. repeat split; assumption.
Defined.

(* ===================================================================== *)
(** * Further properties of bin/do_cf.py *)
(* ===================================================================== *)

Section DoCfFurther.
Context `{Pylya}.

Lemma dict_get_append (p q : Z) (d : delta) (data : list (Z * list delta)) :
  dict_get q (DoCf.dict_append p d data)
  = if p =? q then Some (default [] (dict_get p data) ++ [d]) else dict_get q data.
Proof.
  induction data as [|[r ds] data IH]; simpl.
  - destruct (Z.eqb_spec q p) as [Hqp|Hqp]; destruct (Z.eqb_spec p q) as [Hpq|Hpq];
      congruence.
  - destruct (Z.eqb_spec p r) as [Hpr|Hpr]; simpl.
    + subst r.
      destruct (Z.eqb_spec q p) as [Hqp|Hqp]; destruct (Z.eqb_spec p q) as [Hpq|Hpq];
        congruence.
    + rewrite IH.
      destruct (Z.eqb_spec p q) as [->|Hpq]; [|reflexivity].
      destruct (Z.eqb_spec q r); [congruence | reflexivity].
Qed.

Lemma dict_append_keys (p : Z) (d : delta) (data : list (Z * list delta)) :
  map fst (DoCf.dict_append p d data)
  = if bool_decide (p ∈ map fst data) then map fst data else map fst data ++ [p].
Proof.
  induction data as [|[r ds] data IH].
  - reflexivity.
  - cbn [DoCf.dict_append map fst].
    destruct (Z.eqb_spec p r) as [Hpr|Hpr]; cbn [map fst].
    + subst r. rewrite bool_decide_true; [reflexivity | left].
    + rewrite IH. destruct (bool_decide_reflect (p ∈ map fst data)) as [Hin|Hnin].
      * rewrite bool_decide_true; [reflexivity | by right].
      * rewrite bool_decide_false; [reflexivity|].
        rewrite elem_of_cons. intros [?|?]; congruence.
Qed.

Lemma dict_append_nodup (p : Z) (d : delta) (data : list (Z * list delta)) :
  NoDup (map fst data) -> NoDup (map fst (DoCf.dict_append p d data)).
Proof.
  intros Hnd. rewrite dict_append_keys.
  destruct (bool_decide_reflect (p ∈ map fst data)) as [Hin|Hnin]; [exact Hnd|].
  apply NoDup_app. repeat split; [exact Hnd | | apply NoDup_singleton].
  intros x Hx Hx'. apply list_elem_of_singleton in Hx'. congruence.
Qed.

Lemma dict_append_concat (p : Z) (d : delta) (data : list (Z * list delta)) :
  Permutation (concat (map snd (DoCf.dict_append p d data)))
              (concat (map snd data) ++ [d]).
Proof.
  induction data as [|[r ds] data IH]; simpl; [reflexivity|].
  destruct (p =? r); simpl.
  - rewrite <- !app_assoc. apply Permutation_app_head, Permutation_app_comm.
  - rewrite IH. by rewrite app_assoc.
Qed.

Lemma members_snoc (q : Z) (dps : list (delta * Z)) (d : delta) (p : Z) :
  members q (dps ++ [(d, p)]) = members q dps ++ (if p =? q then [d] else []).
Proof.
  unfold members. rewrite List.filter_app, map_app. simpl.
  by destruct (p =? q).
Qed.

Lemma bucketed_step (data : list (Z * list delta)) (done : list delta) (pd : list Z)
  (d : delta) (p : Z) :
  length pd = length done ->
  bucketed data done pd ->
  bucketed (DoCf.dict_append p d data) (done ++ [d]) (pd ++ [p]).
Proof.
  intros Hlen (Hnd & Hperm & Hget). repeat split.
  - by apply dict_append_nodup.
  - rewrite dict_append_concat. by apply Permutation_app_tail.
  - intros q. rewrite dict_get_append.
    rewrite zip_with_app by (symmetry; exact Hlen). cbn [zip_with].
    rewrite members_snoc.
    destruct (Z.eqb_spec p q) as [->|Hpq].
    + rewrite Hget. destruct (members q (zip done pd)); reflexivity.
    + rewrite app_nil_r. apply Hget.
Qed.

Lemma preprocess_loop_bucketed (a : args) (g : cf_globals) (dps : list (delta * Z)) :
  forall data done pd data' done',
    length pd = length done ->
    bucketed data done pd ->
    DoCf.preprocess_loop a g dps data done = Ok (data', done') ->
    bucketed data' done' (pd ++ map snd dps) /\
    length done' = (length done + length dps)%nat.
Proof.
  induction dps as [|[d p] dps IH]; intros data done pd data' done' Hlen Hb; simpl.
  - intros [= <- <-]. rewrite app_nil_r. split; [exact Hb | lia].
  - destruct (DoCf.preprocess_one a g d) as [d'|e]; simpl; [|discriminate].
    intros Hloop.
    assert (Hlen' : length (pd ++ [p]) = length (done ++ [d'])).
    { rewrite !length_app. simpl. lia. }
    destruct (IH (DoCf.dict_append p d' data) (done ++ [d']) (pd ++ [p]) data' done'
                Hlen' (bucketed_step data done pd d' p Hlen Hb) Hloop) as [Hb' Hl'].
    rewrite <- app_assoc in Hb'. simpl in Hb'. split; [exact Hb'|].
    rewrite Hl', length_app. simpl. lia.
Qed.

(** X1: when the preprocessing loop of the driver succeeds, the dict [data]
    has pairwise distinct keys, every key holds exactly the preprocessed
    forests of that pixel in catalogue order (so no cell is empty and a pixel
    without forest is no key), and the cells together hold every forest
    exactly once. *)
Theorem preprocess_buckets_every_forest_once
  (a : args) (g : cf_globals) (dels : list delta)
  (data : list (Z * list delta)) (done : list delta) :
  DoCf.preprocess a g dels = Ok (data, done) ->
  length done = length dels /\
  NoDup (map fst data) /\
  Permutation (concat (map snd data)) done /\
  (forall q, dict_get q data
             = match members q (zip done (DoCf.pixels (cf_nside g) dels)) with
               | [] => None
               | l => Some l
               end).
Proof.
  unfold DoCf.preprocess. intros Hloop.
  assert (Hinit : bucketed [] [] []).
  { repeat split; [constructor | reflexivity]. }
  destruct (preprocess_loop_bucketed a g (zip dels (DoCf.pixels (cf_nside g) dels))
              [] [] [] data done eq_refl Hinit Hloop)
    as [(Hnd & Hperm & Hget) Hlen].
  - assert (Hsnd : map snd (zip dels (DoCf.pixels (cf_nside g) dels))
                   = DoCf.pixels (cf_nside g) dels).
    { apply (snd_zip dels). rewrite pixels_length. lia. }
    simpl in Hget, Hlen. rewrite Hsnd in Hget.
    repeat split; try assumption.
    rewrite Hlen, length_zip_with, pixels_length. lia.
Qed.

Lemma preprocess_one_outcome (a : args) (g : cf_globals) (d : delta) :
  if weights_broadcast d
  then exists d', DoCf.preprocess_one a g d = Ok d'
  else DoCf.preprocess_one a g d = Raise ValueError.
Proof.
  unfold weights_broadcast, DoCf.preprocess_one, DoCf.imul, DoCf.evolution, DoCf.redshift.
  rewrite !length_map.
  destruct (length (d_we d) =? length (d_ll d))%nat; simpl; [by eexists|].
  destruct (d_ll d) as [|l0 [|l1 ll]]; simpl; [reflexivity | by eexists | reflexivity].
Qed.

Lemma preprocess_loop_outcome (a : args) (g : cf_globals) (dps : list (delta * Z)) :
  forall data done,
    if forallb weights_broadcast (map fst dps)
    then exists r, DoCf.preprocess_loop a g dps data done = Ok r
    else DoCf.preprocess_loop a g dps data done = Raise ValueError.
Proof.
  induction dps as [|[d p] dps IH]; intros data done; simpl; [by eexists|].
  pose proof (preprocess_one_outcome a g d) as Hone.
  destruct (weights_broadcast d); simpl.
  - destruct Hone as [d' ->]. simpl. apply IH.
  - by rewrite Hone.
Qed.



(** X4: for per-cell results of [n] bins each, the three columns of the
    first table have [n] entries, and the two columns of the second table
    have one row of [n] entries per cell. *)
Theorem reduce_output_shapes (g : cf_globals) (n : nat) (cfs : list cell_cf) :
  cfs <> [] -> Forall (cell_shape n) cfs ->
  exists out,
    DoCf.reduce g cfs = Ok out /\
    length (DoCf.o_rp out) = n /\ length (DoCf.o_rt out) = n /\
    length (DoCf.o_z out) = n /\
    length (DoCf.o_we out) = length cfs /\ length (DoCf.o_da out) = length cfs /\
    Forall (fun row => length row = n) (DoCf.o_we out) /\
    Forall (fun row => length row = n) (DoCf.o_da out).
Proof.
  intros Hne Hshape. destruct cfs as [|c0 cfs0] eqn:E; [done|]. rewrite <- E in *.
  assert (Hn : length (c_we c0) = n).
  { rewrite E in Hshape. apply Forall_cons in Hshape as [[? _] _]. done. }
  assert (Hwes : Forall (fun r => length r = n) (map c_we cfs)).
  { apply Forall_fmap. eapply Forall_impl; [exact Hshape|]. by intros c [? _]. }
  assert (Hdas : Forall (fun r => length r = n) (map c_da cfs)).
  { apply Forall_fmap. eapply Forall_impl; [exact Hshape|]. by intros c (_ & ? & _). }
  assert (Hcol : forall x : cell_cf -> list float,
            (forall c, cell_shape n c -> length (x c) = n) ->
            length (zip_with F64.div
                      (Np.sum_axis0 n (Np.zip2 F64.mul (map x cfs) (map c_we cfs)))
                      (Np.sum_axis0 n (map c_we cfs))) = n).
  { intros x Hx. rewrite length_zip_with, !sum_axis0_length; [lia | exact Hwes |].
    apply (zip2_rows x n cfs 0). by apply cell_shape_pair. }
  eexists. split.
  - rewrite E at 1. unfold DoCf.reduce. rewrite <- E. reflexivity.
  - simpl. rewrite Hn, !length_map. repeat split; try done.
    + apply Hcol. by intros c (_ & _ & ? & _).
    + apply Hcol. by intros c (_ & _ & _ & ? & _).
    + apply Hcol. by intros c (_ & _ & _ & _ & ?).
Qed.

End DoCfFurther.

(* ===================================================================== *)
(** * Further properties of picca.delta_extraction.data *)
(* ===================================================================== *)

Section DataFurther.
Context `{Picca}.

Lemma filter_forests_eq (d : Data.data) :
  Forall (fun f => length (f_flux f) = length (f_ivar f)) (Data.forests d) ->
  Data.filter_forests d
  = Ok (spec_without (spec_fails_quality (Data.min_num_pix d)) d).
Proof.
  intros Hshape. unfold Data.filter_forests.
  rewrite (quality_indexs_positions _ _ Hshape). simpl.
  by rewrite del_sorted_positions.
Qed.

Lemma filter_bad_cont_forests_eq (d : Data.data) :
  Data.filter_bad_cont_forests d = Ok (spec_without spec_bad_continuum d).
Proof.
  unfold Data.filter_bad_cont_forests.
  rewrite bad_cont_indexs_positions. simpl.
  by rewrite del_sorted_positions.
Qed.

Lemma Forall_list_filter {A} (P : A -> Prop) (keep : A -> bool) (l : list A) :
  Forall P l -> Forall P (List.filter keep l).
Proof.
  induction 1 as [|x l Hx _ IH]; simpl; [constructor|].
  destruct (keep x); [by constructor | exact IH].
Qed.

Lemma list_filter_idem {A} (keep : A -> bool) (l : list A) :
  List.filter keep (List.filter keep l) = List.filter keep l.
Proof.
  induction l as [|x l IH]; simpl; [reflexivity|].
  destruct (keep x) eqn:Hx; simpl; [by rewrite Hx, IH | exact IH].
Qed.

Lemma list_filter_comm {A} (k1 k2 : A -> bool) (l : list A) :
  List.filter k1 (List.filter k2 l) = List.filter k2 (List.filter k1 l).
Proof.
  induction l as [|x l IH]; simpl; [reflexivity|].
  destruct (k1 x) eqn:H1, (k2 x) eqn:H2; simpl; rewrite ?H1, ?H2, IH; reflexivity.
Qed.

(** X5: the two filters are idempotent and commute: filtering an already
    filtered sample removes nothing more, and the quality filter followed by
    the bad-continuum filter leaves the same sample as the other order.  The
    flux and ivar arrays of a forest share their length. *)
Theorem filters_idempotent_and_commute (d : Data.data) :
  Forall (fun f => length (f_flux f) = length (f_ivar f)) (Data.forests d) ->
  (do d1 <- Data.filter_forests d; Data.filter_forests d1) = Data.filter_forests d /\
  (do d1 <- Data.filter_bad_cont_forests d; Data.filter_bad_cont_forests d1)
  = Data.filter_bad_cont_forests d /\
  (do d1 <- Data.filter_forests d; Data.filter_bad_cont_forests d1)
  = (do d1 <- Data.filter_bad_cont_forests d; Data.filter_forests d1).
Proof.
  intros Hshape.
  rewrite (filter_forests_eq d Hshape), !filter_bad_cont_forests_eq. simpl.
  rewrite !filter_bad_cont_forests_eq.
  rewrite !filter_forests_eq by (simpl; by apply Forall_list_filter).
  unfold spec_without. simpl. repeat split.
  - by rewrite list_filter_idem.
  - by rewrite list_filter_idem.
  - f_equal. f_equal. apply list_filter_comm.
Qed.

Lemma quality_indexs_all_short (min_num_pix : Z) (fs : list forest) :
  Forall (fun f => Z.of_nat (length (f_flux f)) < min_num_pix) fs ->
  forall index acc,
    Data.quality_indexs min_num_pix index fs acc
    = Ok (acc ++ positions (fun _ => true) index fs).
Proof.
  induction 1 as [|f fs Hf _ IH]; intros index acc; simpl; [by rewrite app_nil_r|].
  unfold Data.fails_quality.
  destruct (Z.ltb_spec (Z.of_nat (length (f_flux f))) min_num_pix); [|lia].
  simpl. rewrite IH. by rewrite <- app_assoc.
Qed.

(** X6: when every forest has fewer pixels than the configured minimum,
    [filter_forests] removes them all, whatever their flux and ivar arrays
    contain (the product of the two is never formed). *)
Theorem filter_forests_drops_all_short_forests (d : Data.data) :
  Forall (fun f => Z.of_nat (length (f_flux f)) < Data.min_num_pix d) (Data.forests d) ->
  Data.filter_forests d
  = Ok {| Data.analysis_type := Data.analysis_type d;
          Data.forests := [];
          Data.min_num_pix := Data.min_num_pix d |}.
Proof.
  intros Hshort. unfold Data.filter_forests.
  rewrite (quality_indexs_all_short _ _ Hshort). simpl.
  rewrite del_sorted_positions. simpl. do 2 f_equal.
  clear Hshort. generalize (Data.forests d).
  induction l as [|f fs IH]; [reflexivity | exact IH].
Qed.

Lemma assign_healpix_forall2 (nside : Z) (fs : list forest) :
  Forall2 (fun f f' =>
             f' = {| f_los_id := f_los_id f; f_ra := f_ra f; f_dec := f_dec f;
                     f_flux := f_flux f; f_ivar := f_ivar f;
                     f_bad_continuum_reason := f_bad_continuum_reason f;
                     f_healpix := Some (spec_healpix nside f) |})
    fs (Data.assign_healpix fs (Data.healpixs_at nside fs)).
Proof.
  unfold Data.assign_healpix, Data.healpixs_at.
  induction fs as [|f fs IH]; simpl; constructor; [reflexivity | exact IH].
Qed.

(** X7: [find_nside] raises ZeroDivisionError on an empty list of forests
    and on no other; on a non-empty list it returns as many forests, in
    order, each unchanged except for its healpix id, which is overwritten
    with the id at the final nside. *)
Theorem find_nside_fails_only_on_empty (fs : list forest) :
  match fs with
  | [] => Data.find_nside fs = Raise ZeroDivisionError
  | _ =>
      exists nside fs',
        Data.find_nside fs = Ok (nside, fs') /\
        Forall2 (fun f f' =>
                   f' = {| f_los_id := f_los_id f; f_ra := f_ra f; f_dec := f_dec f;
                           f_flux := f_flux f; f_ivar := f_ivar f;
                           f_bad_continuum_reason := f_bad_continuum_reason f;
                           f_healpix := Some (spec_healpix nside f) |}) fs fs'
  end.
Proof.
  destruct fs as [|f0 fs0] eqn:E; [reflexivity|]. rewrite <- E.
  assert (Hne : fs <> []) by (rewrite E; discriminate).
  destruct (nside_loop_spec fs Hne 6) as (k & _ & _ & _ & Hloop).
  exists (2 ^ (Z.of_nat k + 2)),
    (Data.assign_healpix fs (Data.healpixs_at (2 ^ (Z.of_nat k + 2)) fs)).
  split; [|apply assign_healpix_forall2].
  unfold Data.find_nside. change 256 with (2 ^ (Z.of_nat 6 + 2)).
  rewrite (mean_num_obj_spec _ _ Hne). simpl rbind at 1.
  rewrite Hloop. reflexivity.
Qed.

(** X8: [Data.__init__] never checks the absorber name: with the analysis
    type "BAO 3D" (given or by default) and an 'absorber IGM' that is no key
    of ABSORBER_IGM, the constructor raises nothing on that account and
    leaves [Pk1dForest.lambda_abs_igm] set to None, whatever it was before. *)
Theorem unknown_absorber_is_accepted (c : config) (igm : option float) (name : string) :
  default Data.default_analysis_type (c !! "analysis type") = "BAO 3D" ->
  c !! "absorber IGM" = Some name ->
  ABSORBER_IGM !! name = None ->
  (Data.init c igm).1 = None /\
  (Data.init c igm).2 = (Data.init (delete "absorber IGM" c) igm).2 /\
  (forall msg, (Data.init c igm).2 <> Raise (DataError msg)).
Proof.
  intros Ht Habs Hunknown.
  assert (Ht' : match c !! "analysis type" with
                | Some v => v
                | None => Data.default_analysis_type
                end = "BAO 3D").
  { by destruct (c !! "analysis type"). }
  unfold Data.init, Data.getint.
  rewrite (lookup_delete_ne c "absorber IGM" "analysis type") by done.
  rewrite (lookup_delete_ne c "absorber IGM" "minimum number pixels in forest")
    by done.
  rewrite Ht', Habs, Hunknown.
  rewrite (bool_decide_true ("BAO 3D" ∈ Data.accepted_analysis_type)) by left.
  simpl. split; [reflexivity|]. split; [reflexivity|].
  intros msg. destruct (c !! "minimum number pixels in forest") as [v|]; simpl;
    [destruct (py_int v)|]; simpl; discriminate.
Qed.

End DataFurther.

(* ===================================================================== *)
(** * Further properties of DesiData.read_from_desi *)
(* ===================================================================== *)

Section ReadFurther.

Lemma where_eq_nil (targetid_spec : list Z) (targetid : Z) :
  forall index,
    DesiData.where_eq index targetid_spec targetid = [] <-> targetid ∉ targetid_spec.
Proof.
  induction targetid_spec as [|t ts IH]; intros index; simpl.
  - split; [intros _; apply not_elem_of_nil | reflexivity].
  - destruct (Z.eqb_spec t targetid) as [->|Hne].
    + split; [discriminate | intros Hnin; exfalso; apply Hnin; left].
    + rewrite IH, not_elem_of_cons. split; [by split | by intros [_ ?]].
Qed.

Lemma build_specs_outcome (hdul : gmap string hdu) (sd : list (string * spec_dict))
  (w_t : list nat) (e : entry) (calls : list forest_args) :
  Forall (fun cs => DesiData.read_band hdul cs.1 = Ok cs.2) sd ->
  DesiData.build_specs (map snd sd) w_t e calls
  = (calls, match sd with [] => Ok tt | _ => Raise (KeyError "IV") end).
Proof.
  destruct 1 as [|[c spec] sd Hcs _]; simpl; [reflexivity|].
  simpl in Hcs. by rewrite (forest_args_of_read_band _ _ _ _ _ Hcs).
Qed.

Lemma build_entries_outcome (hdul : gmap string hdu) (sd : list (string * spec_dict))
  (targetid_spec : list Z) (entries : list entry) (calls : list forest_args) :
  Forall (fun cs => DesiData.read_band hdul cs.1 = Ok cs.2) sd ->
  DesiData.build_entries sd targetid_spec entries calls
  = (calls,
     if existsb (fun e => bool_decide (e_targetid e ∈ targetid_spec)) entries
        && negb (length sd =? 0)%nat
     then Raise (KeyError "IV") else Ok tt).
Proof.
  intros Hsd. induction entries as [|e entries IH]; simpl; [reflexivity|].
  destruct (DesiData.where_eq 0 targetid_spec (e_targetid e)) as [|i w_t] eqn:Hw.
  - apply where_eq_nil in Hw. rewrite (bool_decide_false _ Hw). exact IH.
  - assert (Hin : e_targetid e ∈ targetid_spec).
    { destruct (decide (e_targetid e ∈ targetid_spec)) as [|Hnin]; [done|].
      apply (where_eq_nil _ _ 0%nat) in Hnin. congruence. }
    rewrite (bool_decide_true _ Hin), (build_specs_outcome hdul sd _ _ _ Hsd). simpl.
    destruct sd as [|cs sd']; simpl; [|reflexivity].
    rewrite IH. simpl. by rewrite andb_false_r.
Qed.

(** X10: what reading one spectra file ends in, once its bands are read.
    No forest is ever constructed.  If the catalogue has an entry whose
    target is in the file and at least one band was kept, the loop stops with
    KeyError 'IV' (the reader indexes [spec] with a key it never stored);
    otherwise it ends normally. *)
Theorem read_file_outcome (hdul : gmap string hdu) (sd : list (string * spec_dict))
  (targetid_spec : list Z) (entries : list entry) :
  DesiData.spectrographs_data hdul = Ok sd ->
  DesiData.read_file hdul targetid_spec entries
  = ([],
     if existsb (fun e => bool_decide (e_targetid e ∈ targetid_spec)) entries
        && negb (length sd =? 0)%nat
     then Raise (KeyError "IV") else Ok tt).
Proof.
  intros Hsd. unfold DesiData.read_file. rewrite Hsd.
  apply (build_entries_outcome hdul). by apply spectrographs_data_elem.
Qed.

Lemma dict_set_keys (color : string) (spec : spec_dict) (sd : list (string * spec_dict)) :
  map fst (DesiData.dict_set color spec sd)
  = if bool_decide (color ∈ map fst sd) then map fst sd else map fst sd ++ [color].
Proof.
  induction sd as [|[c s] sd IH]; [reflexivity|].
  cbn [DesiData.dict_set map fst].
  destruct (bool_decide_reflect (c = color)) as [->|Hne]; cbn [map fst].
  - rewrite bool_decide_true; [reflexivity | left].
  - rewrite IH. destruct (bool_decide_reflect (color ∈ map fst sd)) as [Hin|Hnin].
    + rewrite bool_decide_true; [reflexivity | by right].
    + rewrite bool_decide_false; [reflexivity|].
      rewrite elem_of_cons. intros [?|?]; congruence.
Qed.

Lemma dict_set_keys_elem (color c : string) (spec : spec_dict)
  (sd : list (string * spec_dict)) :
  c ∈ map fst (DesiData.dict_set color spec sd) <-> c = color \/ c ∈ map fst sd.
Proof.
  rewrite dict_set_keys.
  destruct (bool_decide_reflect (color ∈ map fst sd)) as [Hin|Hnin].
  - split; [by right | intros [->|?]; done].
  - rewrite elem_of_app, list_elem_of_singleton. tauto.
Qed.

Lemma dict_set_nodup (color : string) (spec : spec_dict) (sd : list (string * spec_dict)) :
  NoDup (map fst sd) -> NoDup (map fst (DesiData.dict_set color spec sd)).
Proof.
  intros Hnd. rewrite dict_set_keys.
  destruct (bool_decide_reflect (color ∈ map fst sd)) as [Hin|Hnin]; [exact Hnd|].
  apply NoDup_app. repeat split; [exact Hnd | | apply NoDup_singleton].
  intros x Hx Hx'. apply list_elem_of_singleton in Hx'. congruence.
Qed.

(** the only OSError of [read_band] is a missing HDU *)
Lemma read_band_oserror (hdul : gmap string hdu) (color : string) :
  DesiData.read_band hdul color = Raise OSError ->
  hdul !! (color +:+ "_WAVELENGTH") = None \/ hdul !! (color +:+ "_FLUX") = None \/
  hdul !! (color +:+ "_IVAR") = None \/ hdul !! (color +:+ "_MASK") = None.
Proof.
  unfold DesiData.read_band, DesiData.read_hdu.
  destruct (hdul !! (color +:+ "_WAVELENGTH")) as [wl|]; [|by left].
  destruct (hdul !! (color +:+ "_FLUX")) as [fl|]; [|by right; left].
  destruct (hdul !! (color +:+ "_IVAR")) as [iv|]; [|by right; right; left].
  destruct (hdul !! (color +:+ "_MASK")) as [mk|]; [|by right; right; right].
  unfold rbind at 1 2 3 4. unfold DesiData.mask_ivar.
  destruct iv as [|iv|]; try discriminate.
  destruct mk as [| |mk]; try discriminate.
  destruct (DesiData.same_shape iv mk); [|discriminate].
  unfold rbind.
  destruct fl as [|fl|]; try discriminate.
  destruct (DesiData.same_shape fl _); discriminate.
Qed.

Lemma read_bands_keys (hdul : gmap string hdu) (colors : list string) :
  forall sd0 sd,
    DesiData.read_bands hdul colors sd0 = Ok sd ->
    (NoDup (map fst sd0) -> NoDup (map fst sd)) /\
    (forall c, c ∈ map fst sd -> c ∈ map fst sd0 \/ c ∈ colors) /\
    (forall c, c ∈ map fst sd0 -> c ∈ map fst sd) /\
    (forall c, c ∈ colors -> c ∉ map fst sd ->
               DesiData.read_band hdul c = Raise OSError).
Proof.
  induction colors as [|color colors IH]; intros sd0 sd; simpl.
  - intros [= <-]. repeat split; try done.
    + intros c Hc. by left.
    + intros c Hc. by apply elem_of_nil in Hc.
  - destruct (DesiData.read_band hdul color) as [spec|e] eqn:Hband.
    + intros Hrest. destruct (IH _ _ Hrest) as (Hnd & Hsub & Hkeep & Hdrop).
      repeat split.
      * intros Hnd0. by apply Hnd, dict_set_nodup.
      * intros c Hc. destruct (Hsub c Hc) as [Hc'|Hc'].
        -- apply dict_set_keys_elem in Hc' as [->|Hc']; [right; left | by left].
        -- right. by right.
      * intros c Hc. apply Hkeep, dict_set_keys_elem. by right.
      * intros c Hc Hnin. apply elem_of_cons in Hc as [->|Hc]; [|by apply Hdrop].
        exfalso. apply Hnin, Hkeep, dict_set_keys_elem. by left.
    + destruct e; try discriminate.
      intros Hrest. destruct (IH _ _ Hrest) as (Hnd & Hsub & Hkeep & Hdrop).
      repeat split; try assumption.
      * intros c Hc. destruct (Hsub c Hc) as [?|?]; [by left | right; by right].
      * intros c Hc Hnin. apply elem_of_cons in Hc as [->|Hc]; [exact Hband|].
        by apply Hdrop.
Qed.

(** X11: the bands kept for one spectra file.  Their colours are distinct
    and among B, R, Z; Z is tried only when the file has a 'Z_FLUX' HDU; a
    kept band has its four HDUs; and a band of B, R that is not kept was
    dropped because one of its four HDUs is missing, the only failure the
    reader forgives. *)
Theorem kept_bands_have_their_hdus (hdul : gmap string hdu)
  (sd : list (string * spec_dict)) :
  DesiData.spectrographs_data hdul = Ok sd ->
  NoDup (map fst sd) /\
  (forall color, color ∈ map fst sd ->
     color ∈ ["B"; "R"; "Z"] /\
     (color = "Z" -> is_Some (hdul !! "Z_FLUX")) /\
     is_Some (hdul !! (color +:+ "_WAVELENGTH")) /\
     is_Some (hdul !! (color +:+ "_FLUX")) /\
     is_Some (hdul !! (color +:+ "_IVAR")) /\
     is_Some (hdul !! (color +:+ "_MASK"))) /\
  (forall color, color ∈ ["B"; "R"] -> color ∉ map fst sd ->
     hdul !! (color +:+ "_WAVELENGTH") = None \/ hdul !! (color +:+ "_FLUX") = None \/
     hdul !! (color +:+ "_IVAR") = None \/ hdul !! (color +:+ "_MASK") = None).
Proof.
  intros Hsd. pose proof (spectrographs_data_elem _ _ Hsd) as Hall.
  unfold DesiData.spectrographs_data in Hsd.
  destruct (read_bands_keys _ _ _ _ Hsd) as (Hnd & Hsub & _ & Hdrop).
  split; [apply Hnd; constructor|]. split.
  - intros color Hc.
    apply list_elem_of_fmap in Hc as ([c spec] & -> & Hin). simpl.
    rewrite Forall_forall in Hall. specialize (Hall _ Hin). simpl in Hall.
    destruct (read_band_ok _ _ _ Hall) as (wl & fl & iv & mk & Hwl & Hfl & Hiv & Hmk & _).
    rewrite Hwl, Hfl, Hiv, Hmk.
    assert (Hcol : c ∈ ["B"; "R"] ++
                       (if bool_decide (is_Some (hdul !! "Z_FLUX")) then ["Z"] else [])).
    { destruct (Hsub c) as [Hc|Hc]; [|by apply elem_of_nil in Hc|exact Hc].
      apply list_elem_of_fmap. by exists (c, spec). }
    repeat split; try by eexists.
    + destruct (bool_decide (is_Some (hdul !! "Z_FLUX"))); simpl in Hcol.
      * exact Hcol.
      * rewrite !elem_of_cons in *. tauto.
    + intros ->. destruct (bool_decide_reflect (is_Some (hdul !! "Z_FLUX"))) as [|Hno];
        [done|].
      simpl in Hcol. rewrite !elem_of_cons in Hcol.
      destruct Hcol as [?|[?|Hc]]; [discriminate | discriminate | by apply elem_of_nil in Hc].
  - intros color Hc Hnin. apply read_band_oserror, Hdrop; [|exact Hnin].
    apply elem_of_app. by left.
Qed.

End ReadFurther.

(* ===================================================================== *)
(** * Properties of Data.save_deltas *)
(* ===================================================================== *)

Section SaveDeltasProperties.

Lemma insert_unique_elem (x y : Z) (l : list Z) :
  y ∈ SaveDeltas.insert_unique x l <-> y = x \/ y ∈ l.
Proof.
  induction l as [|z l IH]; simpl.
  - rewrite list_elem_of_singleton. split; [by left | intros [?|Hin]; [done|]].
    by apply elem_of_nil in Hin.
  - destruct (Z.ltb_spec x z); [by rewrite elem_of_cons|].
    destruct (Z.eqb_spec x z) as [->|Hne].
    + rewrite elem_of_cons. tauto.
    + rewrite !elem_of_cons, IH. tauto.
Qed.

Lemma insert_unique_sorted (x : Z) (l : list Z) :
  StronglySorted Z.lt l -> StronglySorted Z.lt (SaveDeltas.insert_unique x l).
Proof.
  induction 1 as [|z l Hl IH Hz]; simpl; [repeat constructor|].
  destruct (Z.ltb_spec x z) as [Hlt|Hge].
  - constructor; [by constructor|]. constructor; [exact Hlt|].
    eapply Forall_impl; [exact Hz|]. simpl. intros; lia.
  - destruct (Z.eqb_spec x z) as [->|Hne]; [by constructor|].
    constructor; [exact IH|].
    apply Forall_forall. intros y Hy. apply insert_unique_elem in Hy as [->|Hy]; [lia|].
    rewrite Forall_forall in Hz. by apply Hz.
Qed.

Lemma np_unique_elem (a : list Z) (y : Z) : y ∈ SaveDeltas.np_unique a <-> y ∈ a.
Proof.
  induction a as [|x a IH]; simpl; [reflexivity|].
  rewrite insert_unique_elem, IH, elem_of_cons. reflexivity.
Qed.

Lemma np_unique_sorted (a : list Z) : StronglySorted Z.lt (SaveDeltas.np_unique a).
Proof.
  induction a as [|x a IH]; simpl; [constructor | by apply insert_unique_sorted].
Qed.

Lemma sorted_lt_nodup (u : list Z) : StronglySorted Z.lt u -> NoDup u.
Proof.
  induction 1 as [|z u _ IH Hz]; constructor; [|exact IH].
  intros Hin. rewrite Forall_forall in Hz. specialize (Hz _ Hin). lia.
Qed.

(** the items of [healpixs_indexs] are already in the order [sorted] gives *)
Lemma sorted_items_of_sorted_keys (g : Z -> list nat) (u : list Z) :
  StronglySorted Z.lt u ->
  SaveDeltas.sorted_items (map (fun hp => (hp, g hp)) u) = map (fun hp => (hp, g hp)) u.
Proof.
  induction 1 as [|z u _ IH Hz]; simpl; [reflexivity|].
  unfold SaveDeltas.sorted_items in *. simpl. rewrite IH.
  destruct u as [|z' u]; simpl; [reflexivity|].
  apply Forall_cons in Hz as [Hz _].
  destruct (Z.leb_spec z z'); [reflexivity | lia].
Qed.

Lemma hdus_where (hs : list Z) (hp : Z) :
  forall (pre fs : list forest),
    length hs = length fs ->
    SaveDeltas.hdus (pre ++ fs) (DesiData.where_eq (length pre) hs hp)
    = Ok (map snd (List.filter (fun hf : Z * forest => hf.1 =? hp) (zip hs fs))).
Proof.
  induction hs as [|h hs IH]; intros pre [|f fs] Hlen; try discriminate; [reflexivity|].
  simpl in Hlen. injection Hlen as Hlen.
  specialize (IH (pre ++ [f]) fs Hlen).
  rewrite length_app in IH. simpl in IH.
  replace (length pre + 1)%nat with (S (length pre)) in IH by lia.
  rewrite <- app_assoc in IH. simpl in IH.
  simpl. destruct (h =? hp); simpl; [|exact IH].
  unfold SaveDeltas.hdus in *. simpl.
  rewrite list_lookup_middle by reflexivity. simpl. rewrite IH. reflexivity.
Qed.

Lemma written_by_healpix (hs : list Z) (hp : Z) :
  forall fs : list forest,
    map f_healpix fs = map Some hs ->
    map snd (List.filter (fun hf : Z * forest => hf.1 =? hp) (zip hs fs))
    = List.filter (fun f => bool_decide (f_healpix f = Some hp)) fs.
Proof.
  induction hs as [|h hs IH]; intros [|f fs] Hmap; try discriminate; [reflexivity|].
  simpl in Hmap. injection Hmap as Hf Hmap. simpl. rewrite Hf.
  destruct (Z.eqb_spec h hp) as [->|Hne]; simpl.
  - rewrite bool_decide_true by reflexivity. f_equal. by apply IH.
  - rewrite bool_decide_false by congruence. by apply IH.
Qed.

Lemma save_deltas_files (out_dir : string) (fs : list forest) (g : Z -> list nat)
  (u : list Z) (written : Z -> list forest) :
  (forall hp, SaveDeltas.hdus fs (g hp) = Ok (written hp)) ->
  rmapM (fun it : Z * list nat =>
           do w <- SaveDeltas.hdus fs it.2;
           Ok (SaveDeltas.filename out_dir it.1, w))
        (map (fun hp => (hp, g hp)) u)
  = Ok (map (fun hp => (SaveDeltas.filename out_dir hp, written hp)) u).
Proof.
  intros Hg. induction u as [|hp u IH]; simpl; [reflexivity|].
  rewrite Hg. simpl. rewrite IH. reflexivity.
Qed.

Lemma save_deltas_eq (out_dir : string) (healpixs : list Z) (fs : list forest) :
  map f_healpix fs = map Some healpixs ->
  SaveDeltas.save_deltas out_dir healpixs fs
  = Ok (map (fun hp => (SaveDeltas.filename out_dir hp,
                        List.filter (fun f => bool_decide (f_healpix f = Some hp)) fs))
            (SaveDeltas.np_unique healpixs)).
Proof.
  intros Hmap. unfold SaveDeltas.save_deltas, SaveDeltas.healpixs_indexs.
  rewrite sorted_items_of_sorted_keys by apply np_unique_sorted.
  apply save_deltas_files. intros hp.
  assert (Hlen : length healpixs = length fs).
  { apply (f_equal length) in Hmap. rewrite !length_map in Hmap. done. }
  rewrite <- (written_by_healpix healpixs hp fs Hmap).
  exact (hdus_where healpixs hp [] fs Hlen).
Qed.

(** X12: [save_deltas] writes one file per distinct healpix id, in strictly
    ascending order of the id, named [out_dir/delta-<id>.fits.gz], and the
    HDUs of a file are exactly the forests with that id, in the order of
    [self.forests].  [healpixs] is the array of the forests' ids. *)
Theorem save_deltas_groups_forests_by_healpix
  (out_dir : string) (healpixs : list Z) (fs : list forest) :
  map f_healpix fs = map Some healpixs ->
  SaveDeltas.save_deltas out_dir healpixs fs
  = Ok (map (fun hp => (SaveDeltas.filename out_dir hp,
                        List.filter (fun f => bool_decide (f_healpix f = Some hp)) fs))
            (SaveDeltas.np_unique healpixs)) /\
  StronglySorted Z.lt (SaveDeltas.np_unique healpixs) /\
  (forall hp, hp ∈ SaveDeltas.np_unique healpixs <-> hp ∈ healpixs).
Proof.
  intros Hmap. split; [by apply save_deltas_eq|].
  split; [apply np_unique_sorted | intros hp; apply np_unique_elem].
Qed.

Lemma concat_map_nil {A K} (u : list K) :
  concat (map (fun _ : K => @nil A) u) = [].
Proof. induction u as [|k u IH]; simpl; [reflexivity | exact IH]. Qed.

Lemma concat_map_insert {A K} `{EqDecision K} (x : A) (k0 : K) (g : K -> list A)
  (u : list K) :
  NoDup u -> k0 ∈ u ->
  Permutation
    (concat (map (fun k => if bool_decide (k0 = k) then x :: g k else g k) u))
    (x :: concat (map g u)).
Proof.
  induction 1 as [|k u Hk Hnd IH]; intros Hin; [by apply elem_of_nil in Hin|].
  simpl. destruct (bool_decide_reflect (k0 = k)) as [->|Hne].
  - simpl. apply Permutation_cons; [reflexivity|]. apply Permutation_app_head.
    assert (Hsame : map (fun k' => if bool_decide (k = k') then x :: g k' else g k') u
                    = map g u).
    { apply map_ext_in. intros k' Hk'. apply list_elem_of_In in Hk'.
      rewrite bool_decide_false; [reflexivity | congruence]. }
    by rewrite Hsame.
  - apply elem_of_cons in Hin as [?|Hin]; [congruence|].
    rewrite (IH Hin). symmetry. apply Permutation_middle.
Qed.

(** the classes of a list under a key, over a duplicate-free list of keys
    that has them all, rearrange the list *)
Lemma partition_by_key {A K} `{EqDecision K} (key : A -> K) (u : list K) (l : list A) :
  NoDup u -> Forall (fun x => key x ∈ u) l ->
  Permutation
    (concat (map (fun k => List.filter (fun x => bool_decide (key x = k)) l) u)) l.
Proof.
  intros Hnd. induction 1 as [|x l Hx _ IH]; simpl.
  - by rewrite concat_map_nil.
  - etransitivity; [|apply Permutation_cons; [reflexivity | exact IH]].
    etransitivity;
      [|apply (concat_map_insert x (key x)
                 (fun k => List.filter (fun y => bool_decide (key y = k)) l) u Hnd Hx)].
    apply Permutation_refl'. reflexivity.
Qed.

(** X13: [save_deltas] writes every forest to exactly one file: the HDUs of
    all files together are a rearrangement of [self.forests], and no file is
    left without an HDU. *)
Theorem save_deltas_writes_every_forest_once
  (out_dir : string) (healpixs : list Z) (fs : list forest)
  (files : list (string * list forest)) :
  map f_healpix fs = map Some healpixs ->
  SaveDeltas.save_deltas out_dir healpixs fs = Ok files ->
  Permutation (concat (map snd files)) fs /\
  Forall (fun file => file.2 <> []) files /\
  length files = length (remove_dups healpixs).
Proof.
  intros Hmap Hsave. rewrite (save_deltas_eq _ _ _ Hmap) in Hsave.
  injection Hsave as <-.
  assert (Hkeys : forall f, f ∈ fs -> exists hp, f_healpix f = Some hp /\ hp ∈ healpixs).
  { intros f Hf.
    assert (Hin : f_healpix f ∈ map Some healpixs).
    { rewrite <- Hmap. apply list_elem_of_fmap. by exists f. }
    apply list_elem_of_fmap in Hin as (hp & -> & Hhp). by exists hp. }
  pose proof (sorted_lt_nodup _ (np_unique_sorted healpixs)) as Hnd.
  repeat split.
  - rewrite map_map. simpl.
    pose proof (partition_by_key f_healpix (map Some (SaveDeltas.np_unique healpixs)) fs)
      as Hpart.
    rewrite map_map in Hpart. apply Hpart.
    + apply (NoDup_fmap_2 Some). exact Hnd.
    + apply Forall_forall. intros f Hf. destruct (Hkeys f Hf) as (hp & -> & Hhp).
      apply list_elem_of_fmap. exists hp. split; [reflexivity|].
      by apply np_unique_elem.
  - apply Forall_forall. intros file Hfile.
    apply list_elem_of_fmap in Hfile as (hp & -> & Hhp). simpl.
    apply (proj1 (np_unique_elem healpixs hp)) in Hhp.
    assert (Hin : Some hp ∈ map f_healpix fs).
    { rewrite Hmap. apply list_elem_of_fmap. exists hp. split; [reflexivity | exact Hhp]. }
    apply list_elem_of_fmap in Hin as (f & Hf & Hfin).
    intros Hnil.
    assert (Hfilt : f ∈ List.filter (fun f => bool_decide (f_healpix f = Some hp)) fs).
    { apply list_elem_of_In, filter_In. split; [by apply list_elem_of_In|].
      by apply bool_decide_eq_true. }
    rewrite Hnil in Hfilt. by apply elem_of_nil in Hfilt.
  - rewrite length_map. apply Permutation_length, NoDup_Permutation.
    + exact Hnd.
    + apply NoDup_remove_dups.
    + intros hp. rewrite np_unique_elem, elem_of_remove_dups. reflexivity.
Qed.

End SaveDeltasProperties.

(* ===================================================================== *)
(** * Properties of picca.prep_pk1d *)
(* ===================================================================== *)

Section ExpDiffDesi.

Lemma zip_with_replicate_same {A B C} (f : A -> B -> C) (n : nat) (a : A) (b : B) :
  zip_with f (replicate n a) (replicate n b) = replicate n (f a b).
Proof. induction n as [|n IH]; simpl; [reflexivity | by rewrite IH]. Qed.

(** X14: with fewer than two exposures [exp_diff_desi] prints its
    diagnostic and returns a difference spectrum of [npix] zeros, whatever
    the single exposure holds (a NaN in it does not reach the result). *)
Theorem exp_diff_desi_needs_two_exposures (fl iv : list (list float)) (npix : nat) :
  (length fl < 2)%nat ->
  PrepPk1d.exp_diff_desi fl iv npix
  = (["DBG : not enough exposures for diff"], Ok (replicate npix F64.zero)).
Proof.
  intros Hlen. destruct fl as [|r [|r' fl]]; simpl in Hlen; try lia.
  - unfold PrepPk1d.exp_diff_desi. simpl. unfold PrepPk1d.normalize.
    rewrite !zip_with_replicate_same. reflexivity.
  - unfold PrepPk1d.exp_diff_desi. simpl. unfold PrepPk1d.normalize.
    rewrite !zip_with_replicate_same. reflexivity.
Qed.

Lemma accumulate_app (fl iv x y : list (list float)) (t : PrepPk1d.totals) (i : nat) :
  (i < length fl)%nat -> (i < length iv)%nat ->
  PrepPk1d.accumulate (fl ++ x) (iv ++ y) t i = PrepPk1d.accumulate fl iv t i.
Proof.
  intros Hfl Hiv. unfold PrepPk1d.accumulate, PrepPk1d.row.
  by rewrite !lookup_app_l.
Qed.

Lemma accumulate_all_app (fl iv x y : list (list float)) (iexps : list nat) :
  Forall (fun i => (i < length fl)%nat /\ (i < length iv)%nat) iexps ->
  forall t,
    PrepPk1d.accumulate_all (fl ++ x) (iv ++ y) iexps t
    = PrepPk1d.accumulate_all fl iv iexps t.
Proof.
  induction 1 as [|i iexps [Hfl Hiv] _ IH]; intros t; simpl; [reflexivity|].
  rewrite (accumulate_app _ _ _ _ _ _ Hfl Hiv).
  destruct (PrepPk1d.accumulate fl iv t i); simpl; [apply IH | reflexivity].
Qed.

Lemma paired_exposures_of_odd (n : nat) :
  Nat.even n = true -> (2 * ((n + 1) / 2))%nat = n.
Proof.
  intros Heven. apply Nat.even_spec in Heven as [k ->].
  replace (2 * k + 1)%nat with (1 + k * 2)%nat by lia.
  rewrite Nat.div_add by lia. simpl. lia.
Qed.

Lemma exp_diff_desi_odd (fl iv : list (list float)) (r q : list float) (npix : nat) :
  length iv = length fl -> Nat.even (length fl) = true ->
  PrepPk1d.exp_diff_desi (fl ++ [r]) (iv ++ [q]) npix
  = ((if (length fl + 1 <? 2)%nat then ["DBG : not enough exposures for diff"] else []),
     do t <- PrepPk1d.accumulate_all fl iv (seq 0 (length fl))
               {| PrepPk1d.fltotodd := replicate npix F64.zero;
                  PrepPk1d.ivtotodd := replicate npix F64.zero;
                  PrepPk1d.fltoteven := replicate npix F64.zero;
                  PrepPk1d.ivtoteven := replicate npix F64.zero |};
     Ok (zip_with (fun e o => F64.mul (F64.mul PrepPk1d.f0_5 (F64.sub e o))
                                      (PrepPk1d.alpha (length fl + 1)))
           (PrepPk1d.normalize (PrepPk1d.fltoteven t) (PrepPk1d.ivtoteven t))
           (PrepPk1d.normalize (PrepPk1d.fltotodd t) (PrepPk1d.ivtotodd t)))).
Proof.
  intros Hiv Heven. unfold PrepPk1d.exp_diff_desi.
  rewrite length_app. cbn [length].
  rewrite (paired_exposures_of_odd _ Heven).
  rewrite accumulate_all_app; [reflexivity|].
  apply Forall_forall. intros i Hi. apply elem_of_seq in Hi. lia.
Qed.

(** X15: with an odd number of exposures the last one is left out of the
    difference: replacing it by any other exposure changes neither what is
    printed nor the result.  The count enters only through [alpha]. *)
Theorem exp_diff_desi_ignores_unpaired_exposure
  (fl iv : list (list float)) (r q r' q' : list float) (npix : nat) :
  length iv = length fl -> Nat.even (length fl) = true ->
  PrepPk1d.exp_diff_desi (fl ++ [r]) (iv ++ [q]) npix
  = PrepPk1d.exp_diff_desi (fl ++ [r']) (iv ++ [q']) npix.
Proof.
  intros Hiv Heven.
  by rewrite !(exp_diff_desi_odd fl iv _ _ npix Hiv Heven).
Qed.

Lemma inplace_same_length (op : float -> float -> float) (a b : list float) :
  length a = length b ->
  PrepPk1d.inplace op a b = Ok (zip_with op a b).
Proof. intros Hlen. unfold PrepPk1d.inplace. by rewrite Hlen, Nat.eqb_refl. Qed.

Lemma accumulate_shape (fl iv : list (list float)) (npix : nat) (t : PrepPk1d.totals)
  (i : nat) :
  Forall (fun row => length row = npix) fl ->
  Forall (fun row => length row = npix) iv ->
  (i < length fl)%nat -> (i < length iv)%nat ->
  totals_shape npix t ->
  exists t', PrepPk1d.accumulate fl iv t i = Ok t' /\ totals_shape npix t'.
Proof.
  intros Hfl Hiv Hi Hi' (H1 & H2 & H3 & H4).
  destruct (lookup_lt_is_Some_2 fl i Hi) as [rf Hrf].
  destruct (lookup_lt_is_Some_2 iv i Hi') as [ri Hri].
  assert (Hlf : length rf = npix).
  { rewrite Forall_forall in Hfl. eapply Hfl, list_elem_of_lookup_2, Hrf. }
  assert (Hli : length ri = npix).
  { rewrite Forall_forall in Hiv. eapply Hiv, list_elem_of_lookup_2, Hri. }
  unfold PrepPk1d.accumulate, PrepPk1d.row, Np.binop.
  rewrite Hrf, Hri. simpl. rewrite Hlf, Hli, Nat.eqb_refl. simpl.
  assert (Hprod : length (zip_with F64.mul rf ri) = npix).
  { rewrite length_zip_with. lia. }
  destruct (Nat.odd i).
  - rewrite !inplace_same_length by lia. simpl.
    eexists. split; [reflexivity|].
    repeat split; simpl; try assumption; rewrite length_zip_with; lia.
  - rewrite !inplace_same_length by lia. simpl.
    eexists. split; [reflexivity|].
    repeat split; simpl; try assumption; rewrite length_zip_with; lia.
Qed.

Lemma accumulate_all_shape (fl iv : list (list float)) (npix : nat) (iexps : list nat) :
  Forall (fun row => length row = npix) fl ->
  Forall (fun row => length row = npix) iv ->
  Forall (fun i => (i < length fl)%nat /\ (i < length iv)%nat) iexps ->
  forall t, totals_shape npix t ->
    exists t', PrepPk1d.accumulate_all fl iv iexps t = Ok t' /\ totals_shape npix t'.
Proof.
  intros Hfl Hiv. induction 1 as [|i iexps [Hi Hi'] _ IH]; intros t Ht; simpl.
  - by exists t.
  - destruct (accumulate_shape fl iv npix t i Hfl Hiv Hi Hi' Ht) as (t1 & -> & Ht1).
    simpl. by apply IH.
Qed.

(** X16: on a spectrum whose exposures all have [npix] pixels, with as many
    rows of inverse variance as of flux, [exp_diff_desi] raises nothing and
    returns a difference spectrum of [npix] pixels. *)
Theorem exp_diff_desi_returns_npix_pixels (fl iv : list (list float)) (npix : nat) :
  Forall (fun row => length row = npix) fl ->
  Forall (fun row => length row = npix) iv ->
  length iv = length fl ->
  exists diff,
    (PrepPk1d.exp_diff_desi fl iv npix).2 = Ok diff /\ length diff = npix.
Proof.
  intros Hfl Hiv Hlen. unfold PrepPk1d.exp_diff_desi. cbn [snd].
  destruct (accumulate_all_shape fl iv npix (seq 0 (2 * (length fl / 2))) Hfl Hiv)
    with (t := {| PrepPk1d.fltotodd := replicate npix F64.zero;
                  PrepPk1d.ivtotodd := replicate npix F64.zero;
                  PrepPk1d.fltoteven := replicate npix F64.zero;
                  PrepPk1d.ivtoteven := replicate npix F64.zero |})
    as (t & -> & (H1 & H2 & H3 & H4)).
  - apply Forall_forall. intros i Hi. apply elem_of_seq in Hi.
    assert (2 * (length fl / 2) <= length fl)%nat by (apply Nat.Div0.mul_div_le).
    lia.
  - repeat split; apply length_replicate.
  - simpl. eexists. split; [reflexivity|].
    unfold PrepPk1d.normalize. rewrite !length_zip_with. lia.
Qed.

End ExpDiffDesi.

Section ResolutionProperties.
Context `{Pk1dEnv}.

(** X17: [spectral_resolution] returns one value per entry of [wdisp].  It
    fails only with a correction, with ValueError, and exactly when [ll] has
    neither the length of [wdisp] nor a single entry; the fibre plays no
    part in that. *)
Theorem spectral_resolution_outcome (wdisp : list float) (with_correction : bool)
  (fiber : Z) (ll : list float) :
  if with_correction && negb (length wdisp =? length ll)%nat
     && negb (length ll =? 1)%nat
  then PrepPk1d.spectral_resolution wdisp with_correction fiber ll = Raise ValueError
  else exists reso,
         PrepPk1d.spectral_resolution wdisp with_correction fiber ll = Ok reso
         /\ length reso = length wdisp.
Proof.
  unfold PrepPk1d.spectral_resolution.
  destruct with_correction; cbn [andb].
  2:{ eexists. split; [reflexivity|]. by rewrite length_map. }
  set (reso := map _ wdisp).
  set (plateau := zip_with _ _ _).
  assert (Hreso : length reso = length wdisp) by apply length_map.
  assert (Hplateau : length plateau = length ll).
  { unfold plateau. rewrite length_zip_with, !length_map. lia. }
  set (corr := if fiber mod 500 <? 100 then _ else _).
  assert (Hcorr : length corr = length ll).
  { unfold corr. destruct (_ <? 100); [|destruct (400 <? _)];
      rewrite ?length_map; exact Hplateau. }
  clearbody reso corr. unfold PrepPk1d.inplace. rewrite Hreso, Hcorr.
  destruct (Nat.eqb_spec (length wdisp) (length ll)) as [Heq|Hne]; cbn [negb andb].
  - eexists. split; [reflexivity|]. rewrite length_zip_with. lia.
  - destruct (Nat.eqb_spec (length ll) 1) as [H1|H1]; cbn [negb].
    + destruct corr as [|y [|y' corr]]; simpl in Hcorr; try lia.
      eexists. split; [reflexivity|]. by rewrite length_map.
    + destruct corr as [|y [|y' corr]]; simpl in Hcorr; try reflexivity. lia.
Qed.

(** X18: the correction of [spectral_resolution] depends on the fibre only
    through its distance to the nearer edge of its spectrograph of 500
    fibres, capped at 100: fibres 30 and 470 are treated alike, and so are
    all fibres from 100 to 400. *)
Theorem spectral_resolution_depends_on_edge_distance
  (wdisp ll : list float) (with_correction : bool) (fiber fiber' : Z) :
  edge_distance fiber = edge_distance fiber' ->
  PrepPk1d.spectral_resolution wdisp with_correction fiber ll
  = PrepPk1d.spectral_resolution wdisp with_correction fiber' ll.
Proof.
  unfold edge_distance. intros Hdist.
  unfold PrepPk1d.spectral_resolution.
  destruct with_correction; [|reflexivity].
  pose proof (Z.mod_pos_bound fiber 500 ltac:(lia)) as Hm.
  pose proof (Z.mod_pos_bound fiber' 500 ltac:(lia)) as Hm'.
  cbv zeta. f_equal.
  destruct (Z.ltb_spec (fiber mod 500) 100), (Z.ltb_spec (fiber' mod 500) 100),
    (Z.ltb_spec 400 (fiber mod 500)), (Z.ltb_spec 400 (fiber' mod 500));
    try reflexivity; try lia.
  - replace (fiber' mod 500) with (fiber mod 500) by lia. reflexivity.
  - replace (500 - fiber' mod 500) with (fiber mod 500) by lia. reflexivity.
  - replace (500 - fiber mod 500) with (fiber' mod 500) by lia. reflexivity.
  - replace (fiber' mod 500) with (fiber mod 500) by lia. reflexivity.
Qed.

Lemma py_row_in_range (a : list (list float)) (n : nat) (i : Z) :
  Forall (fun row => length row = n) a ->
  0 <= i < Z.of_nat (length a) ->
  exists r, PrepPk1d.py_row a i = Ok r /\ length r = n.
Proof.
  intros Hrows Hi. unfold PrepPk1d.py_row, PrepPk1d.row.
  destruct (Z.leb_spec 0 i); [|lia]. destruct (Z.ltb_spec i (Z.of_nat (length a))); [|lia].
  cbn [andb].
  destruct (lookup_lt_is_Some_2 a (Z.to_nat i) ltac:(lia)) as [r Hr].
  rewrite Hr. exists r. split; [reflexivity|].
  rewrite Forall_forall in Hrows. eapply Hrows, list_elem_of_lookup_2, Hr.
Qed.

Lemma py_row_out_of_range (a : list (list float)) (i : Z) :
  Z.of_nat (length a) <= i -> PrepPk1d.py_row a i = Raise IndexError.
Proof.
  intros Hi. unfold PrepPk1d.py_row.
  destruct (Z.leb_spec 0 i); [|lia]. destruct (Z.ltb_spec i (Z.of_nat (length a))); [lia|].
  cbn [andb].
  destruct (Z.ltb_spec i 0); [lia|]. by rewrite andb_false_r.
Qed.

Lemma py_row_wraps (a : list (list float)) (i : Z) :
  - Z.of_nat (length a) <= i < 0 ->
  PrepPk1d.py_row a i = PrepPk1d.py_row a (Z.of_nat (length a) + i).
Proof.
  intros Hi. unfold PrepPk1d.py_row.
  destruct (Z.leb_spec 0 i); [lia|]. cbn [andb].
  destruct (Z.leb_spec (- Z.of_nat (length a)) i); [|lia].
  destruct (Z.ltb_spec i 0); [|lia]. cbn [andb].
  destruct (Z.leb_spec 0 (Z.of_nat (length a) + i)); [|lia].
  destruct (Z.ltb_spec (Z.of_nat (length a) + i) (Z.of_nat (length a))); [|lia].
  reflexivity.
Qed.

Lemma py_row_below_range (a : list (list float)) (i : Z) :
  i < - Z.of_nat (length a) -> PrepPk1d.py_row a i = Raise IndexError.
Proof.
  intros Hi. unfold PrepPk1d.py_row.
  destruct (Z.leb_spec 0 i); [lia|]. cbn [andb].
  destruct (Z.leb_spec (- Z.of_nat (length a)) i); [lia|]. reflexivity.
Qed.

(** a row index that Python accepts: in range, from the start or the end *)
Lemma py_row_accepted (a : list (list float)) (n : nat) (i : Z) :
  Forall (fun row => length row = n) a ->
  - Z.of_nat (length a) <= i < Z.of_nat (length a) ->
  exists r, PrepPk1d.py_row a i = Ok r /\ length r = n.
Proof.
  intros Hrows Hi. destruct (Z.lt_ge_cases i 0).
  - rewrite py_row_wraps by lia. apply py_row_in_range; [assumption | lia].
  - apply py_row_in_range; [assumption | lia].
Qed.

Lemma rms_term_accepted (a : list (list float)) (n : nat) (k : float) (c d : Z) :
  Forall (fun row => length row = n) a ->
  - Z.of_nat (length a) <= c < Z.of_nat (length a) ->
  - Z.of_nat (length a) <= d < Z.of_nat (length a) ->
  exists t, PrepPk1d.rms_term a k c d = Ok t /\ length t = n.
Proof.
  intros Hrows Hc Hd. unfold PrepPk1d.rms_term.
  destruct (py_row_accepted a n c Hrows Hc) as (rc & -> & Hrc).
  destruct (py_row_accepted a n d Hrows Hd) as (rd & -> & Hrd).
  simpl. unfold Np.binop. rewrite Hrc, Hrd, Nat.eqb_refl. simpl.
  eexists. split; [reflexivity|]. rewrite length_map, length_zip_with. lia.
Qed.

Lemma rms_term_second_out_of_range (a : list (list float)) (n : nat) (k : float)
  (c d : Z) :
  Forall (fun row => length row = n) a ->
  - Z.of_nat (length a) <= c < Z.of_nat (length a) ->
  d < - Z.of_nat (length a) \/ Z.of_nat (length a) <= d ->
  PrepPk1d.rms_term a k c d = Raise IndexError.
Proof.
  intros Hrows Hc Hd. unfold PrepPk1d.rms_term.
  destruct (py_row_accepted a n c Hrows Hc) as (rc & -> & Hrc). simpl.
  destruct Hd as [Hd|Hd].
  - by rewrite py_row_below_range.
  - by rewrite py_row_out_of_range.
Qed.

Lemma binop_same_length (op : float -> float -> float) (a b : list float) (n : nat) :
  length a = n -> length b = n ->
  exists s, Np.binop op a b = Ok s /\ length s = n.
Proof.
  intros Ha Hb. unfold Np.binop. rewrite Ha, Hb, Nat.eqb_refl.
  eexists. split; [reflexivity|]. rewrite length_zip_with. lia.
Qed.

(** X19: on a resolution matrix whose rows all have [n] pixels,
    [spectral_resolution_desi] raises IndexError when the matrix has fewer
    than five rows (with one to four rows a negative row index wraps
    around, but a row past the end is still asked for) and otherwise
    returns [n] values; [ll] is never looked at. *)
Theorem spectral_resolution_desi_needs_five_rows
  (reso_matrix : list (list float)) (ll : list float) (n : nat) :
  Forall (fun row => length row = n) reso_matrix ->
  if (length reso_matrix <? 5)%nat
  then PrepPk1d.spectral_resolution_desi reso_matrix ll = Raise IndexError
  else exists rms,
         PrepPk1d.spectral_resolution_desi reso_matrix ll = Ok rms /\ length rms = n.
Proof.
  intros Hrows. unfold PrepPk1d.spectral_resolution_desi.
  set (reso := map _ reso_matrix).
  assert (Hlen : length reso = length reso_matrix) by apply length_map.
  assert (Hreso : Forall (fun row => length row = n) reso).
  { unfold reso. apply Forall_fmap. eapply Forall_impl; [exact Hrows|].
    intros row Hrow. simpl. by rewrite length_map. }
  clearbody reso. rewrite <- Hlen. clear Hlen Hrows reso_matrix.
  cbv zeta. set (c := Z.of_nat (length reso) / 2).
  assert (Hc : 2 * c <= Z.of_nat (length reso) < 2 * c + 2).
  { unfold c. pose proof (Z.div_mod (Z.of_nat (length reso)) 2 ltac:(lia)).
    pose proof (Z.mod_pos_bound (Z.of_nat (length reso)) 2 ltac:(lia)). lia. }
  destruct (Nat.ltb_spec (length reso) 5) as [Hshort|Hlong].
  - destruct (Nat.eq_dec (length reso) 0%nat) as [H0|H0].
    { unfold PrepPk1d.rms_term. rewrite py_row_out_of_range by lia. reflexivity. }
    destruct (Nat.eq_dec (length reso) 1%nat) as [H1|H1].
    { destruct (rms_term_accepted reso n F64.one c (c - 1) Hreso) as (t1 & -> & Ht1);
        [lia | lia |]. simpl.
      rewrite (rms_term_second_out_of_range reso n) by (assumption || lia).
      reflexivity. }
    destruct (rms_term_accepted reso n F64.one c (c - 1) Hreso) as (t1 & -> & Ht1);
      [lia | lia |]. simpl.
    destruct (rms_term_accepted reso n PrepPk1d.f4 c (c - 2) Hreso) as (t2 & -> & Ht2);
      [lia | lia |]. simpl.
    destruct (binop_same_length F64.add t1 t2 n Ht1 Ht2) as (s12 & -> & Hs12). simpl.
    destruct (Nat.eq_dec (length reso) 2%nat) as [H2|H2].
    { rewrite (rms_term_second_out_of_range reso n) by (assumption || lia).
      reflexivity. }
    destruct (rms_term_accepted reso n F64.one c (c + 1) Hreso) as (t3 & -> & Ht3);
      [lia | lia |]. simpl.
    destruct (binop_same_length F64.add s12 t3 n Hs12 Ht3) as (s123 & -> & Hs123).
    simpl.
    rewrite (rms_term_second_out_of_range reso n) by (assumption || lia).
    reflexivity.
  - destruct (rms_term_accepted reso n F64.one c (c - 1) Hreso) as (t1 & -> & Ht1);
      [lia | lia |]. simpl.
    destruct (rms_term_accepted reso n PrepPk1d.f4 c (c - 2) Hreso) as (t2 & -> & Ht2);
      [lia | lia |]. simpl.
    destruct (binop_same_length F64.add t1 t2 n Ht1 Ht2) as (s12 & -> & Hs12). simpl.
    destruct (rms_term_accepted reso n F64.one c (c + 1) Hreso) as (t3 & -> & Ht3);
      [lia | lia |]. simpl.
    destruct (binop_same_length F64.add s12 t3 n Hs12 Ht3) as (s123 & -> & Hs123).
    simpl.
    destruct (rms_term_accepted reso n PrepPk1d.f4 c (c + 2) Hreso) as (t4 & -> & Ht4);
      [lia | lia |]. simpl.
    destruct (binop_same_length F64.add s123 t4 n Hs123 Ht4) as (s & -> & Hs). simpl.
    eexists. split; [reflexivity|]. by rewrite length_map.
Qed.

End ResolutionProperties.

(* ===================================================================== *)
(** * Properties of the option defaults of Dr16FixedEtaVarlssFudgeExpectedFlux *)
(* ===================================================================== *)

Section DefaultsProperties.
Context {V : Type} (int_one : V).

(** X20: in the merged [defaults] the number of iterations is 1 whatever
    the three parent classes say; every other option takes the value of the
    fixed-var_lss class if it has one, else that of the fixed-fudge class,
    else that of the fixed-eta class. *)
Theorem merged_defaults_precedence (defaults1 defaults2 defaults3 : gmap string V)
  (key : string) :
  Dr16FixedEtaVarlssFudge.defaults int_one defaults1 defaults2 defaults3 !! key
  = if bool_decide (key = "num iterations") then Some int_one
    else match defaults3 !! key with
         | Some v => Some v
         | None => match defaults2 !! key with
                   | Some v => Some v
                   | None => defaults1 !! key
                   end
         end.
Proof.
  unfold Dr16FixedEtaVarlssFudge.defaults, Dr16FixedEtaVarlssFudge.update.
  destruct (bool_decide_reflect (key = "num iterations")) as [->|Hne].
  - apply lookup_union_Some_l. apply lookup_singleton_eq.
  - rewrite lookup_union_r by (by apply lookup_singleton_ne).
    rewrite !lookup_union.
    destruct (defaults3 !! key), (defaults2 !! key), (defaults1 !! key); reflexivity.
Qed.

End DefaultsProperties.

(* ===================================================================== *)
(** * The further properties on examples *)
(* ===================================================================== *)

Lemma preprocess_buckets_witness :
  exists data done,
    DoCf.preprocess (H := stub_pylya) stub_args stub_globals [stub_delta; stub_delta]
    = Ok (data, done) /\
    length done = 2%nat /\ NoDup (map fst data) /\
    Permutation (concat (map snd data)) done.
Proof.
  destruct (DoCf.preprocess (H := stub_pylya) stub_args stub_globals
              [stub_delta; stub_delta]) as [[data done]|e] eqn:Hrun.
  - destruct (preprocess_buckets_every_forest_once (H := stub_pylya) stub_args
                stub_globals [stub_delta; stub_delta] data done Hrun)
      as (Hlen & Hkeys & Hall & _).
    exists data, done. repeat split; assumption.
  - vm_compute in Hrun. discriminate.
Defined.

Lemma reduce_output_shapes_witness :
  exists out,
    DoCf.reduce stub_globals
      [one_bin_cell (F64.of_Z 1) (F64.of_Z 1); one_bin_cell (F64.of_Z 1) (F64.of_Z 3)]
    = Ok out /\
    length (DoCf.o_rp out) = 1%nat /\ length (DoCf.o_we out) = 2%nat.
Proof.
  destruct (reduce_output_shapes stub_globals 1
              [one_bin_cell (F64.of_Z 1) (F64.of_Z 1);
               one_bin_cell (F64.of_Z 1) (F64.of_Z 3)])
    as (out & Hout & Hrp & _ & _ & Hwe & _).
  - discriminate.
  - repeat constructor.
  - exists out. repeat split; assumption.
Defined.

Lemma filters_commute_witness :
  (do d1 <- Data.filter_forests (H := stub_picca) stub_data;
   Data.filter_bad_cont_forests d1)
  = (do d1 <- Data.filter_bad_cont_forests stub_data;
     Data.filter_forests (H := stub_picca) d1).
Proof.
  apply (filters_idempotent_and_commute (H := stub_picca) stub_data).
  repeat constructor.
Defined.

Lemma filter_forests_short_witness :
  Data.filter_forests (H := stub_picca)
    {| Data.analysis_type := "BAO 3D";
       Data.forests := [stub_forest 1 [F64.nan] [F64.one] None;
                        stub_forest 2 [F64.one; F64.one] [] None];
       Data.min_num_pix := 50 |}
  = Ok {| Data.analysis_type := "BAO 3D"; Data.forests := []; Data.min_num_pix := 50 |}.
Proof.
  apply (filter_forests_drops_all_short_forests (H := stub_picca)
           {| Data.analysis_type := "BAO 3D";
              Data.forests := [stub_forest 1 [F64.nan] [F64.one] None;
                               stub_forest 2 [F64.one; F64.one] [] None];
              Data.min_num_pix := 50 |}).
  repeat constructor.
Defined.

Lemma unknown_absorber_witness :
  (Data.init (H := stub_picca) {[ "absorber IGM" := "LYX" ]} (Some F64.one)).1 = None.
Proof.
  apply (unknown_absorber_is_accepted (H := stub_picca)
           {[ "absorber IGM" := "LYX" ]} (Some F64.one) "LYX");
    vm_compute; reflexivity.
Defined.

Lemma read_file_outcome_witness :
  DesiData.read_file stub_hdul [7] [stub_entry 5; stub_entry 7]
  = ([], Raise (KeyError "IV")) /\
  DesiData.read_file stub_hdul [7] [stub_entry 5] = ([], Ok tt).
Proof.
  split.
  - rewrite (read_file_outcome stub_hdul [("B", stub_spec)] [7]
               [stub_entry 5; stub_entry 7] stub_file_bands).
    vm_compute. reflexivity.
  - rewrite (read_file_outcome stub_hdul [("B", stub_spec)] [7]
               [stub_entry 5] stub_file_bands).
    vm_compute. reflexivity.
Defined.

Lemma kept_bands_witness :
  NoDup (map fst [("B", stub_spec)]) /\
  (stub_hdul !! "R_WAVELENGTH" = None \/ stub_hdul !! "R_FLUX" = None \/
   stub_hdul !! "R_IVAR" = None \/ stub_hdul !! "R_MASK" = None).
Proof.
  destruct (kept_bands_have_their_hdus stub_hdul [("B", stub_spec)] stub_file_bands)
    as (Hdistinct & _ & Hdropped).
  split; [exact Hdistinct|].
  apply (Hdropped "R").
  - apply list_elem_of_further, list_elem_of_here.
  - simpl. intros Hin. apply list_elem_of_singleton in Hin. discriminate.
Defined.

Lemma save_deltas_groups_witness :
  SaveDeltas.save_deltas "out" [2; 1; 2]
    [stub_pixel_forest 10 2; stub_pixel_forest 11 1; stub_pixel_forest 12 2]
  = Ok [("out/delta-1.fits.gz", [stub_pixel_forest 11 1]);
        ("out/delta-2.fits.gz", [stub_pixel_forest 10 2; stub_pixel_forest 12 2])].
Proof.
  destruct (save_deltas_groups_forests_by_healpix "out" [2; 1; 2]
              [stub_pixel_forest 10 2; stub_pixel_forest 11 1; stub_pixel_forest 12 2])
    as (-> & _).
  - reflexivity.
  - vm_compute. reflexivity.
Defined.

Lemma save_deltas_once_witness :
  Permutation
    [stub_pixel_forest 11 1; stub_pixel_forest 10 2; stub_pixel_forest 12 2]
    [stub_pixel_forest 10 2; stub_pixel_forest 11 1; stub_pixel_forest 12 2].
Proof.
  apply (save_deltas_writes_every_forest_once "out" [2; 1; 2]
           [stub_pixel_forest 10 2; stub_pixel_forest 11 1; stub_pixel_forest 12 2]
           [("out/delta-1.fits.gz", [stub_pixel_forest 11 1]);
            ("out/delta-2.fits.gz", [stub_pixel_forest 10 2; stub_pixel_forest 12 2])]).
  - reflexivity.
  - vm_compute. reflexivity.
Defined.

Lemma exp_diff_desi_one_exposure_witness :
  PrepPk1d.exp_diff_desi [[F64.nan; F64.one]] [[F64.one; F64.one]] 2
  = (["DBG : not enough exposures for diff"], Ok [F64.zero; F64.zero]).
Proof.
  apply (exp_diff_desi_needs_two_exposures [[F64.nan; F64.one]] [[F64.one; F64.one]] 2).
  simpl. lia.
Defined.

Lemma exp_diff_desi_unpaired_witness :
  PrepPk1d.exp_diff_desi [[F64.one]; [F64.of_Z 3]; [F64.nan]]
                         [[F64.one]; [F64.one]; [F64.one]] 1
  = PrepPk1d.exp_diff_desi [[F64.one]; [F64.of_Z 3]; [F64.of_Z 5]]
                           [[F64.one]; [F64.one]; [F64.of_Z 2]] 1.
Proof.
  apply (exp_diff_desi_ignores_unpaired_exposure
           [[F64.one]; [F64.of_Z 3]] [[F64.one]; [F64.one]]
           [F64.nan] [F64.one] [F64.of_Z 5] [F64.of_Z 2] 1); reflexivity.
Defined.

Lemma exp_diff_desi_shape_witness :
  exists diff,
    (PrepPk1d.exp_diff_desi [[F64.one]; [F64.of_Z 3]] [[F64.one]; [F64.one]] 1).2
    = Ok diff /\ length diff = 1%nat.
Proof.
  apply (exp_diff_desi_returns_npix_pixels
           [[F64.one]; [F64.of_Z 3]] [[F64.one]; [F64.one]] 1);
    [repeat constructor | repeat constructor | reflexivity].
Defined.

Lemma spectral_resolution_edge_witness :
  PrepPk1d.spectral_resolution (H := stub_pk1d) [F64.one; F64.of_Z 2] true 30
    [F64.of_Z 3; F64.of_Z 4]
  = PrepPk1d.spectral_resolution (H := stub_pk1d) [F64.one; F64.of_Z 2] true 970
      [F64.of_Z 3; F64.of_Z 4].
Proof.
  apply (spectral_resolution_depends_on_edge_distance (H := stub_pk1d)
           [F64.one; F64.of_Z 2] [F64.of_Z 3; F64.of_Z 4] true 30 970).
  reflexivity.
Defined.

Lemma spectral_resolution_desi_witness :
  PrepPk1d.spectral_resolution_desi (H := stub_pk1d)
    [[F64.one]; [F64.of_Z 2]; [F64.of_Z 3]; [F64.of_Z 2]] [] = Raise IndexError /\
  exists rms,
    PrepPk1d.spectral_resolution_desi (H := stub_pk1d)
      [[F64.one]; [F64.of_Z 2]; [F64.of_Z 3]; [F64.of_Z 2]; [F64.one]] [] = Ok rms /\
    length rms = 1%nat.
Proof.
  split.
  - apply (spectral_resolution_desi_needs_five_rows (H := stub_pk1d)
             [[F64.one]; [F64.of_Z 2]; [F64.of_Z 3]; [F64.of_Z 2]] [] 1).
    repeat constructor.
  - apply (spectral_resolution_desi_needs_five_rows (H := stub_pk1d)
             [[F64.one]; [F64.of_Z 2]; [F64.of_Z 3]; [F64.of_Z 2]; [F64.one]] [] 1).
    repeat constructor.
Defined.

